(** * FluxEngine: job admission, the worker loop and the statistics engine

    A shallow embedding of the Go sources

    - [internal/models/job.go]       (Job, NewJob, generateJobID, randString)
    - [internal/handler/job_handler.go] (HandleSubmitJob)
    - the worker package             (Start, processJob, processPasswordHash,
                                      processReportGeneration, computeStatistics,
                                      logResult)

    Go's [int] is the 64-bit two's complement integer of amd64; [float64] is
    the kernel's binary64 float with every operation rounded on its own, so
    sums, means and medians evaluate to the very bits the Go program produces
    there.  The clock, the entropy source, the slice heap and the log are
    threaded through a small state-and-panic monad. *)

From Stdlib Require Import ZArith Lia Permutation Sorted.
From Stdlib Require Import Floats.PrimFloat Floats.SpecFloat Floats.FloatOps Floats.FloatAxioms.
From Stdlib Require Import Numbers.Cyclic.Int63.Uint63.
From Stdlib Require Import Strings.Ascii DecimalString.
From stdpp Require Import gmap strings list fin_maps.

Local Open Scope Z_scope.

(** ** Machine integers *)

Module GoInt.

Definition minInt : Z := - 2 ^ 63.
Definition maxInt : Z := 2 ^ 63 - 1.

(** Two's complement wrap-around of a mathematical integer into [int]. *)
Definition wrap (z : Z) : Z := (z + 2 ^ 63) mod 2 ^ 64 - 2 ^ 63.

Definition add (x y : Z) : Z := wrap (x + y).
Definition sub (x y : Z) : Z := wrap (x - y).
Definition mul (x y : Z) : Z := wrap (x * y).
(** [/] and [%] truncate toward zero; the divisors in this program are
    non-zero constants. *)
Definition quot (x y : Z) : Z := wrap (Z.quot x y).
Definition rem (x y : Z) : Z := Z.rem x y.

Definition in_range (z : Z) : Prop := minInt <= z <= maxInt.

End GoInt.

(** ** float64 *)

Module Float64.

(** [int(f)]: the fraction is discarded.  A value that does not fit (NaN,
    an infinity, magnitude of 2^63 or more) converts to the "integer
    indefinite" value, as on amd64; the Go specification leaves that case to
    the implementation. *)
Definition to_int (f : float) : Z :=
  match Prim2SF f with
  | S754_zero _ => 0
  | S754_finite s m e =>
      let a := if 0 <=? e then Z.pos m * 2 ^ e else Z.quot (Z.pos m) (2 ^ (- e)) in
      let z := if s then - a else a in
      if (GoInt.minInt <=? z) && (z <=? GoInt.maxInt) then z else GoInt.minInt
  | S754_infinity _ | S754_nan => GoInt.minInt
  end.

(** [float64(n)] for an [int] n, rounded to nearest. *)
Definition of_int (n : Z) : float :=
  if n =? GoInt.minInt then (- (of_uint63 (Uint63.of_Z (2 ^ 62)) * 2))%float
  else if n <? 0 then (- of_uint63 (Uint63.of_Z (- n)))%float
  else of_uint63 (Uint63.of_Z n).

(** The order of [sort.Float64s]: ascending, NaNs before every number. *)
Definition less (x y : float) : bool :=
  (is_nan x && negb (is_nan y)) || (x <? y)%float.

Fixpoint insert (x : float) (l : list float) : list float :=
  match l with
  | [] => [x]
  | h :: t => if less x h then x :: h :: t else h :: insert x t
  end.

(** [sort.Float64s] as a function on the slice contents.  Up to twelve
    elements the library (Go 1.19 and later) runs its insertion sort, which takes the elements in
    input order and moves each one left past the elements it is less than;
    [insert] puts it at the same place, behind the elements that are not
    greater, so values that compare equal ([0] and [-0], NaNs) keep their input
    order.  On longer slices the library's pattern-defeating quicksort yields
    a sorted permutation as well, but may leave such values in another order;
    the properties of the sorted copy are therefore stated for a sorted
    permutation of the input. *)
Definition sort (l : list float) : list float :=
  fold_left (fun sorted x => insert x sorted) l [].

End Float64.

(** ** Dynamic values: Go's [interface{}] as this program uses it *)

Inductive value : Type :=
| VNil
| VBool (b : bool)
| VFloat (f : float)          (* float64: every JSON number *)
| VInt (n : Z)                (* int *)
| VString (s : string)
| VComposite.                 (* a JSON array or object; never inspected here *)

Definition asString (v : option value) : option string :=
  match v with Some (VString s) => Some s | _ => None end.

Definition asFloat64 (v : option value) : option float :=
  match v with Some (VFloat f) => Some f | _ => None end.

(** A [map[string]interface{}] variable: [None] is the nil map. *)
Abbreviation gomap := (option (gmap string value)).

(** [m[k]] with the comma-ok form: reading a nil map finds nothing. *)
Definition mapIndex (m : gomap) (k : string) : option value :=
  match m with Some g => g !! k | None => None end.

(** ** Log records

    One constructor per [log.Printf] call site.  Wall-clock durations are
    left out of the records; the clock readings that produce them are kept. *)

Inductive LogEvent : Type :=
| LogWorkerStarted (wid : Z)
| LogWorkerStopped (wid : Z)
| LogProcessing (wid : Z) (id ty : string)
| LogFailed (wid : Z) (id err : string)
| LogCompleted (wid : Z) (id : string)
| LogHashing (cost : Z)
| LogGenerating (n : Z)
| LogComputing (n : Z)
| LogResults (id : string)
| LogResultField (key : string) (v : value)
| LogAccepted (id ty : string)
| LogQueueFull
| LogReadError
| LogParseError.

(** ** The world a goroutine runs in *)

Record World : Type := mkWorld {
  w_clock : nat -> Z;             (* successive readings of time.Now(), as UnixNano *)
  w_ticks : nat;                  (* readings taken so far *)
  w_entropy : nat -> option Z;    (* successive results of rand.Int(rand.Reader, 1000);
                                     None when the source reports an error *)
  w_draws : nat;                  (* draws taken so far *)
  w_heap : list (list float);     (* backing arrays of the []float64 slices *)
  w_log : list LogEvent           (* log lines, oldest first *)
}.

Inductive Outcome (A : Type) : Type :=
| Done (a : A) (w : World)
| Panicked (msg : string) (w : World).
Arguments Done {A} a w.
Arguments Panicked {A} msg w.

Definition Go (A : Type) : Type := World -> Outcome A.

Definition ret {A} (a : A) : Go A := fun w => Done a w.

Definition bind {A B} (m : Go A) (k : A -> Go B) : Go B :=
  fun w => match m w with
           | Done a w' => k a w'
           | Panicked msg w' => Panicked msg w'
           end.

Definition panic {A} (msg : string) : Go A := fun w => Panicked msg w.

(** [strconv.Itoa] *)
Definition itoa (n : Z) : string := NilZero.string_of_int (Z.to_int n).

(** The runtime's text for an index [i] outside a sequence of [n] elements
    ([runtime.boundsError]): a negative index is printed without the length. *)
Definition boundsError (i n : Z) : string :=
  if i <? 0
  then "runtime error: index out of range [" +:+ itoa i +:+ "]"
  else "runtime error: index out of range [" +:+ itoa i +:+ "] with length " +:+ itoa n.

Declare Scope go_scope.
Delimit Scope go_scope with go.
Notation "'let*' x ':=' m 'in' k" := (bind m (fun x => k))
  (at level 10, x name, m at level 100, k at level 200) : go_scope.
Notation "m ';;' k" := (bind m (fun _ => k))
  (at level 100, k at level 200, right associativity) : go_scope.
Local Open Scope go_scope.

Definition outcome_world {A} (o : Outcome A) : World :=
  match o with Done _ w => w | Panicked _ w => w end.

Definition outcome_value {A} (o : Outcome A) : option A :=
  match o with Done a _ => Some a | Panicked _ _ => None end.

Definition set_heap (h : list (list float)) (w : World) : World :=
  mkWorld (w_clock w) (w_ticks w) (w_entropy w) (w_draws w) h (w_log w).

(** [time.Now().UnixNano()] *)
Definition now : Go Z :=
  fun w => Done (w_clock w (w_ticks w))
                (mkWorld (w_clock w) (S (w_ticks w)) (w_entropy w) (w_draws w)
                         (w_heap w) (w_log w)).

(** [rand.Int(rand.Reader, big.NewInt(1000))] *)
Definition randInt1000 : Go (option Z) :=
  fun w => Done (w_entropy w (w_draws w))
                (mkWorld (w_clock w) (w_ticks w) (w_entropy w) (S (w_draws w))
                         (w_heap w) (w_log w)).

(** [log.Printf] *)
Definition logf (e : LogEvent) : Go unit :=
  fun w => Done tt (mkWorld (w_clock w) (w_ticks w) (w_entropy w) (w_draws w)
                            (w_heap w) (w_log w ++ [e])).

(** ** Slices of float64

    A slice value is the address of its backing array; this program never
    re-slices, so offset and capacity are left out. *)

Module Slice.

Definition t : Type := nat.

(** The runtime refuses an allocation beyond its address space. *)
Definition maxAlloc : Z := 2 ^ 48.
Definition maxLen : Z := Eval cbv in maxAlloc / 8.

(** [make([]float64, n)] *)
Definition make (n : Z) : Go t :=
  fun w =>
    if (n <? 0) || (maxLen <? n)
    then Panicked "runtime error: makeslice: len out of range" w
    else Done (length (w_heap w))
              (set_heap (w_heap w ++ [replicate (Z.to_nat n) 0%float]) w).

Definition contents (s : t) : Go (list float) :=
  fun w => match w_heap w !! s with
           | Some xs => Done xs w
           | None => Panicked "runtime error: invalid memory address" w
           end.

(** [len(s)] *)
Definition len (s : t) : Go Z :=
  let* xs := contents s in ret (Z.of_nat (length xs)).

(** [s[i]] as an operand *)
Definition index (s : t) (i : Z) : Go float :=
  let* xs := contents s in
  if i <? 0 then panic (boundsError i (Z.of_nat (length xs)))
  else match xs !! Z.to_nat i with
       | Some x => ret x
       | None => panic (boundsError i (Z.of_nat (length xs)))
       end.

(** [s[i] = x] *)
Definition assign (s : t) (i : Z) (x : float) : Go unit :=
  let* xs := contents s in
  if (i <? 0) || (Z.of_nat (length xs) <=? i)
  then panic (boundsError i (Z.of_nat (length xs)))
  else fun w => Done tt (set_heap (<[s := <[Z.to_nat i := x]> xs]> (w_heap w)) w).

(** [copy(dst, src)] *)
Definition copy (dst src : t) : Go Z :=
  let* d := contents dst in
  let* s := contents src in
  let k := Nat.min (length d) (length s) in
  fun w => Done (Z.of_nat k)
                (set_heap (<[dst := take k s ++ drop k d]> (w_heap w)) w).

(** [sort.Float64s(s)], in place *)
Definition sortFloat64s (s : t) : Go unit :=
  let* xs := contents s in
  fun w => Done tt (set_heap (<[s := Float64.sort xs]> (w_heap w)) w).

(** [for _, v := range s { acc = f(acc, v) }] *)
Definition rangeFold {B} (f : B -> float -> B) (b : B) (s : t) : Go B :=
  let* xs := contents s in ret (fold_left f xs b).

End Slice.

(** ** The statistics engine *)

Definition statsMin (m v : float) : float := if (v <? m)%float then v else m.
Definition statsMax (m v : float) : float := if (m <? v)%float then v else m.

(** [computeStatistics(data []float64) map[string]interface{}] *)
Definition computeStatistics (data : Slice.t) : Go (gmap string value) :=
  let* n := Slice.len data in
  if n =? 0 then ret {[ "error" := VString "empty dataset" ]}
  else
    (* 1. sum and mean *)
    let* sum := Slice.rangeFold PrimFloat.add 0%float data in
    let mean := (sum / Float64.of_int n)%float in
    (* 2. variance and standard deviation *)
    let* varianceSum :=
      Slice.rangeFold (fun acc v => let diff := (v - mean)%float in
                                    (acc + diff * diff)%float) 0%float data in
    let variance := (varianceSum / Float64.of_int n)%float in
    let stdDev := PrimFloat.sqrt variance in
    (* 3. min and max *)
    let* d0 := Slice.index data 0 in
    let* min := Slice.rangeFold statsMin d0 data in
    let* max := Slice.rangeFold statsMax d0 data in
    (* 4. median and percentiles, on a sorted copy *)
    let* sortedData := Slice.make n in
    Slice.copy sortedData data ;;
    Slice.sortFloat64s sortedData ;;
    let* mid := Slice.index sortedData (GoInt.quot n 2) in
    let* median :=
      (if GoInt.rem n 2 =? 0
       then let* lo := Slice.index sortedData (GoInt.sub (GoInt.quot n 2) 1) in
            let* hi := Slice.index sortedData (GoInt.quot n 2) in
            ret ((lo + hi) / 2)%float
       else ret mid) in
    let* p25 := Slice.index sortedData (GoInt.quot n 4) in
    let* p75 := Slice.index sortedData (GoInt.quot (GoInt.mul 3 n) 4) in
    let* p95 := Slice.index sortedData (GoInt.quot (GoInt.mul 95 n) 100) in
    let* p99 := Slice.index sortedData (GoInt.quot (GoInt.mul 99 n) 100) in
    ret (list_to_map
           [ ("count", VInt n); ("sum", VFloat sum); ("mean", VFloat mean);
             ("std_dev", VFloat stdDev); ("variance", VFloat variance);
             ("min", VFloat min); ("max", VFloat max); ("median", VFloat median);
             ("p25", VFloat p25); ("p75", VFloat p75); ("p95", VFloat p95);
             ("p99", VFloat p99); ("range", VFloat (max - min)%float) ]).

(** ** The time package, as far as job identifiers need it *)

Module Time.

Definition digit (d : Z) : ascii := ascii_of_nat (48 + Z.to_nat (d mod 10)).

Definition pad2 (z : Z) : string :=
  String (digit (z / 10)) (String (digit z) EmptyString).

Definition pad4 (z : Z) : string :=
  String (digit (z / 1000)) (String (digit (z / 100)) (pad2 z)).

(** Proleptic Gregorian date of a day count since 1970-01-01. *)
Definition civil (days : Z) : Z * Z * Z :=
  let z := days + 719468 in
  let era := z / 146097 in
  let doe := z - era * 146097 in
  let yoe := (doe - doe / 1460 + doe / 36524 - doe / 146096) / 365 in
  let doy := doe - (365 * yoe + yoe / 4 - yoe / 100) in
  let mp := (5 * doy + 2) / 153 in
  let d := doy - (153 * mp + 2) / 5 + 1 in
  let m := if mp <? 10 then mp + 3 else mp - 9 in
  let y := yoe + era * 400 + (if m <=? 2 then 1 else 0) in
  (y, m, d).

(** [t.Format("20060102150405")] for a reading t given as UnixNano, with
    the process running in UTC. *)
Definition format14 (unixNano : Z) : string :=
  let secs := unixNano / 1000000000 in
  let '(y, m, d) := civil (secs / 86400) in
  let sod := secs mod 86400 in
  pad4 y +:+ pad2 m +:+ pad2 d +:+
  pad2 (sod / 3600) +:+ pad2 (sod / 60 mod 60) +:+ pad2 (sod mod 60).

End Time.

(** ** Jobs ([internal/models/job.go]) *)

Record Job : Type := mkJob {
  job_ID : string;
  job_Type : string;
  job_Payload : gomap;
  job_CreatedAt : Z;
  job_Status : string
}.

Definition set_Status (st : string) (j : Job) : Job :=
  mkJob (job_ID j) (job_Type j) (job_Payload j) (job_CreatedAt j) st.

Definition letters : string := "abcdefghijklmnopqrstuvwxyz0123456789".

(** The body of [for i := range b] in [randString], from index [i] on. *)
Fixpoint randStringFrom (count : nat) (i : Z) : Go string :=
  match count with
  | O => ret EmptyString
  | S count' =>
      let* t := now in
      let k := GoInt.rem (GoInt.add t i) (Z.of_nat (String.length letters)) in
      match (if k <? 0 then None else String.get (Z.to_nat k) letters) with
      | None => panic (boundsError k (Z.of_nat (String.length letters)))
      | Some c =>
          let* rest := randStringFrom count' (i + 1) in
          ret (String c rest)
      end
  end.

(** [randString(n int) string] *)
Definition randString (n : Z) : Go string :=
  if n <? 0 then panic "runtime error: makeslice: len out of range"
  else randStringFrom (Z.to_nat n) 0.

(** [generateJobID() string] *)
Definition generateJobID : Go string :=
  let* t := now in
  let* suffix := randString 6 in
  ret (Time.format14 t +:+ "-" +:+ suffix).

(** [NewJob(jobType string, payload map[string]interface{}) *Job] *)
Definition NewJob (jobType : string) (payload : gomap) : Go Job :=
  let* id := generateJobID in
  let* createdAt := now in
  ret (mkJob id jobType payload createdAt "pending").

(** ** Admission ([internal/handler/job_handler.go]) *)

Record SubmitJobRequest : Type := mkSubmit {
  req_Type : string;
  req_Payload : gomap
}.

(** What [io.ReadAll] and [json.Unmarshal] make of the request body. *)
Inductive Body : Type :=
| Unreadable
| Malformed
| Decoded (req : SubmitJobRequest).

Record Request : Type := mkRequest {
  r_Method : string;
  r_Body : Body
}.

Inductive Response : Type :=
| HttpError (code : Z) (msg : string)
| HttpJSON (code : Z) (body : gmap string value).

Definition StatusAccepted : Z := 202.
Definition StatusBadRequest : Z := 400.
Definition StatusMethodNotAllowed : Z := 405.
Definition StatusServiceUnavailable : Z := 503.

Definition response_code (r : Response) : Z :=
  match r with HttpError c _ => c | HttpJSON c _ => c end.

(** [m[k] = v]: an assignment to an entry of the nil map panics. *)
Definition mapAssign (m : gomap) (k : string) (v : value) : Go gomap :=
  match m with
  | Some g => ret (Some (<[k := v]> g))
  | None => panic "assignment to entry in nil map"
  end.

(** The per-type payload checks of [HandleSubmitJob]: either the response of
    an early return, or the payload the job is built from. *)
Definition validatePayload (ty : string) (payload : gomap) : Go (Response + gomap) :=
  if String.eqb ty "password_hash" then
    match mapIndex payload "password" with
    | None => ret (inl (HttpError StatusBadRequest "Missing 'password' field in payload"))
    | Some _ => ret (inr payload)
    end
  else if String.eqb ty "report_generation" then
    match mapIndex payload "data_points" with
    | None => let* p := mapAssign payload "data_points" (VInt 1000000) in ret (inr p)
    | Some _ => ret (inr payload)
    end
  else ret (inr payload).

(** [HandleSubmitJob].  [ready] tells whether a receiver is blocked on the
    unbuffered queue when the [select] runs; the second component of the
    result is the job handed to the queue, if any. *)
Definition HandleSubmitJob (ready : bool) (r : Request) : Go (Response * option Job) :=
  if negb (String.eqb (r_Method r) "POST")
  then ret (HttpError StatusMethodNotAllowed "Method not allowed", None)
  else match r_Body r with
  | Unreadable =>
      logf LogReadError ;;
      ret (HttpError StatusBadRequest "Failed to read request", None)
  | Malformed =>
      logf LogParseError ;;
      ret (HttpError StatusBadRequest "Invalid JSON", None)
  | Decoded req =>
      if negb (String.eqb (req_Type req) "password_hash")
         && negb (String.eqb (req_Type req) "report_generation")
      then ret (HttpError StatusBadRequest
                  "Invalid job type. Use 'password_hash' or 'report_generation'", None)
      else
        let* checked := validatePayload (req_Type req) (req_Payload req) in
        match checked with
        | inl early => ret (early, None)
        | inr payload =>
            let* job := NewJob (req_Type req) payload in
            if ready then
              logf (LogAccepted (job_ID job) (job_Type job)) ;;
              ret (HttpJSON StatusAccepted
                     (list_to_map
                        [ ("status", VString "accepted");
                          ("job_id", VString (job_ID job));
                          ("message", VString ("Job " +:+ job_ID job +:+
                                               " queued for CPU-intensive processing"));
                          ("note", VString "Job will be processed asynchronously. Use job_id to track status (future phases).") ]),
                   Some job)
            else
              logf LogQueueFull ;;
              ret (HttpError StatusServiceUnavailable "System overloaded, try again later", None)
        end
  end.

(** ** The worker *)

(** What an executor hands back: Go's [(interface{}, error)] pair, the
    result being a [map[string]interface{}] whenever the error is nil. *)
Abbreviation Executed := (gmap string value + string)%type.

Definition DefaultCost : Z := 10.

(** The cost [processPasswordHash] hashes with. *)
Definition effectiveCost (payload : gomap) : Z :=
  match asFloat64 (mapIndex payload "cost") with
  | Some costVal =>
      let cost := Float64.to_int costVal in
      if (cost <? 4) || (31 <? cost) then DefaultCost else cost
  | None => DefaultCost
  end.

(** The length of the dataset [processReportGeneration] builds. *)
Definition effectiveDataPoints (payload : gomap) : Z :=
  let dataPoints :=
    match asFloat64 (mapIndex payload "data_points") with
    | Some dpVal => Float64.to_int dpVal
    | None => 1000000
    end in
  if 10000000 <? dataPoints then 10000000 else dataPoints.

(** The body of [for i := 0; i < dataPoints; i++], from index [i] on;
    [count] is the number of iterations left. *)
Fixpoint fillDataset (count : nat) (dataset : Slice.t) (i : Z) : Go unit :=
  match count with
  | O => ret tt
  | S count' =>
      let* val := randInt1000 in
      let* x :=
        match val with
        | None => let* t := now in ret (Float64.of_int (GoInt.rem t 1000))
        | Some v => ret (Float64.of_int v)
        end in
      Slice.assign dataset i x ;;
      fillDataset count' dataset (i + 1)
  end.

(** [processReportGeneration] *)
Definition processReportGeneration (job : Job) : Go Executed :=
  let dataPoints := effectiveDataPoints (job_Payload job) in
  logf (LogGenerating dataPoints) ;;
  let* dataset := Slice.make dataPoints in
  fillDataset (Z.to_nat dataPoints) dataset 0 ;;
  logf (LogComputing dataPoints) ;;
  let* stats := computeStatistics dataset in
  ret (inl stats).

(** [logResult].  Go visits the entries of a map in an order that changes
    from one [range] to the next; the model visits them in the order of
    [map_to_list], one of these orders, and the properties of the log speak
    of the result lines up to permutation. *)
Definition logResult (jobID : string) (result : gmap string value) : Go unit :=
  logf (LogResults jobID) ;;
  foldr (fun kv rest => logf (LogResultField kv.1 kv.2) ;; rest) (ret tt)
        (map_to_list result).

Record Worker : Type := mkWorker {
  wk_id : Z;
  wk_jobQueue : list Job    (* what the channel delivers before it is closed *)
}.

Definition NewWorker (id : Z) (jobQueue : list Job) : Worker := mkWorker id jobQueue.

Section Bcrypt.

(** golang.org/x/crypto/bcrypt.  [GenerateFromPassword] salts the hash
    from the system's entropy: its first argument is the state of that
    source at the call. *)
Variable GenerateFromPassword : nat -> string -> Z -> string + string.
Variable CompareHashAndPassword : string -> string -> option string.

Definition bcryptGenerate (password : string) (cost : Z) : Go (string + string) :=
  fun w => Done (GenerateFromPassword (w_draws w) password cost)
                (mkWorld (w_clock w) (w_ticks w) (w_entropy w) (S (w_draws w))
                         (w_heap w) (w_log w)).

(** [processPasswordHash] *)
Definition processPasswordHash (job : Job) : Go Executed :=
  match asString (mapIndex (job_Payload job) "password") with
  | None => ret (inr "invalid password field")
  | Some password =>
      let cost := effectiveCost (job_Payload job) in
      logf (LogHashing cost) ;;
      let* hashed := bcryptGenerate password cost in
      match hashed with
      | inr err => ret (inr ("bcrypt hashing failed: " +:+ err))
      | inl hashedPassword =>
          match CompareHashAndPassword hashedPassword password with
          | Some err => ret (inr ("hash verification failed: " +:+ err))
          | None =>
              ret (inl (list_to_map
                          [ ("hash_length", VInt (Z.of_nat (String.length hashedPassword)));
                            ("cost", VInt cost);
                            ("algorithm", VString "bcrypt");
                            ("verified", VBool true) ]))
          end
      end
  end.

(** The [switch job.Type] of [processJob]. *)
Definition execute (job : Job) : Go Executed :=
  if String.eqb (job_Type job) "password_hash" then processPasswordHash job
  else if String.eqb (job_Type job) "report_generation" then processReportGeneration job
  else ret (inr ("unknown job type: " +:+ job_Type job)).

(** [processJob].  The job is mutated through its pointer; the value
    returned is the job as the call leaves it. *)
Definition processJob (w : Worker) (job : Job) : Go Job :=
  let* startTime := now in
  logf (LogProcessing (wk_id w) (job_ID job) (job_Type job)) ;;
  let job := set_Status "processing" job in
  let* executed := execute job in
  let* finished := now in
  match executed with
  | inr err =>
      let job := set_Status "failed" job in
      logf (LogFailed (wk_id w) (job_ID job) err) ;;
      ret job
  | inl result =>
      let job := set_Status "completed" job in
      logf (LogCompleted (wk_id w) (job_ID job)) ;;
      logResult (job_ID job) result ;;
      ret job
  end.

(** The [for job := range w.jobQueue] of [Start]. *)
Fixpoint drain (w : Worker) (queue : list Job) : Go (list Job) :=
  match queue with
  | [] => ret []
  | job :: queue' =>
      let* job' := processJob w job in
      let* rest := drain w queue' in
      ret (job' :: rest)
  end.

(** [Start]: runs until the channel is closed; yields the jobs as the
    worker left them.  A panic that escapes it ends the process. *)
Definition Start (w : Worker) : Go (list Job) :=
  logf (LogWorkerStarted (wk_id w)) ;;
  let* jobs := drain w (wk_jobQueue w) in
  logf (LogWorkerStopped (wk_id w)) ;;
  ret jobs.

End Bcrypt.

(** ** Reading the model *)

(** The element of a sorted copy at an index the bounds check lets through. *)
Definition rank (sorted : list float) (i : Z) : float :=
  default 0%float (sorted !! Z.to_nat i).

(** The map [computeStatistics] builds for a non-empty slice holding [xs]:
    its run unfolded over the slice contents ([computeStatistics_run] proves
    the two agree). *)
Definition statisticsOf (xs : list float) : gmap string value :=
  let n := Z.of_nat (length xs) in
  let sum := fold_left PrimFloat.add xs 0%float in
  let mean := (sum / Float64.of_int n)%float in
  let varianceSum :=
    fold_left (fun acc v => let diff := (v - mean)%float in
                            (acc + diff * diff)%float) xs 0%float in
  let variance := (varianceSum / Float64.of_int n)%float in
  let stdDev := PrimFloat.sqrt variance in
  let min := fold_left statsMin xs (rank xs 0) in
  let max := fold_left statsMax xs (rank xs 0) in
  let sorted := Float64.sort xs in
  let median :=
    if GoInt.rem n 2 =? 0
    then ((rank sorted (GoInt.sub (GoInt.quot n 2) 1) + rank sorted (GoInt.quot n 2)) / 2)%float
    else rank sorted (GoInt.quot n 2) in
  list_to_map
    [ ("count", VInt n); ("sum", VFloat sum); ("mean", VFloat mean);
      ("std_dev", VFloat stdDev); ("variance", VFloat variance);
      ("min", VFloat min); ("max", VFloat max); ("median", VFloat median);
      ("p25", VFloat (rank sorted (GoInt.quot n 4)));
      ("p75", VFloat (rank sorted (GoInt.quot (GoInt.mul 3 n) 4)));
      ("p95", VFloat (rank sorted (GoInt.quot (GoInt.mul 95 n) 100)));
      ("p99", VFloat (rank sorted (GoInt.quot (GoInt.mul 99 n) 100)));
      ("range", VFloat (max - min)%float) ].

(** "[b] does not sort before [a]": the relation between neighbours of a
    sorted slice. *)
Definition inOrder (a b : float) : Prop := Float64.less b a = false.

(** A world whose clock starts at [start] and advances [step] nanoseconds
    per reading; the entropy source yields multiples of 7 below 1000. *)
Definition steadyWorld (start step : Z) (heap : list (list float)) : World :=
  mkWorld (fun k => start + step * Z.of_nat k) 0
          (fun k => Some (Z.of_nat k * 7 mod 1000)) 0 heap [].

(** A world to run examples in: the clock advances 40ns per reading from
    2023-11-14 22:13:20.123456789 UTC, and the heap holds the given slices. *)
Definition exampleWorld (heap : list (list float)) : World :=
  steadyWorld 1700000000123456789 40 heap.

(** The world after [k] more readings of the clock and nothing else. *)
Definition tick (k : nat) (w : World) : World :=
  mkWorld (w_clock w) (k + w_ticks w) (w_entropy w) (w_draws w) (w_heap w) (w_log w).

(** The next [n] readings of the clock show a time after 1970 that [int64]
    nanoseconds can hold with a little room to spare (until the year 2262). *)
Definition clock_sane (n : nat) (w : World) : Prop :=
  forall k : nat, (k < n)%nat -> 0 <= w_clock w (k + w_ticks w) <= GoInt.maxInt - 6.

(** A stand-in for bcrypt to run examples with: 60-byte hashes, no salt, the
    length limit of the real package, and a comparison that accepts exactly
    the hashes of that length. *)
Definition exampleGenerate (seed : nat) (password : string) (cost : Z) : string + string :=
  if (72 <? String.length password)%nat
  then inr "bcrypt: password length exceeds 72 bytes"
  else inl ("$2a$" +:+ Time.pad2 cost +:+
            "$N9qo8uLOickgx2ZMRZoMyeIjZAgcfl7p92ldGxad68LJZdL17lhWy").

Definition exampleCompare (hashed password : string) : option string :=
  if (String.length hashed =? 60)%nat then None
  else Some "crypto/bcrypt: hashedSecret too short to be a bcrypted password".

(** The floats 1, 2, ..., n. *)
Definition oneTo (n : nat) : list float :=
  map (fun k => Float64.of_int (Z.of_nat k)) (seq 1 n).

(** [n] calls of [NewJob], one after the other. *)
Fixpoint newJobs (n : nat) (jobType : string) (payload : gomap) : Go (list Job) :=
  match n with
  | O => ret []
  | S n' =>
      let* job := NewJob jobType payload in
      let* rest := newJobs n' jobType payload in
      ret (job :: rest)
  end.

(** ** Further vocabulary for the properties *)

(** The order of [Float64.less] on the IEEE values behind two floats. *)
Definition SFless (a b : spec_float) : bool :=
  (negb (SFeqb a a) && negb (negb (SFeqb b b))) || SFltb a b.

(** Case analysis on the comparisons of exponents and mantissas that
    [SFcompare] makes. *)
Ltac order_cases :=
  repeat match goal with
         | H : context [PosDef.Pos.compare_cont Eq ?p ?q] |- _ =>
             change (PosDef.Pos.compare_cont Eq p q) with (Pos.compare p q) in H
         | |- context [PosDef.Pos.compare_cont Eq ?p ?q] =>
             change (PosDef.Pos.compare_cont Eq p q) with (Pos.compare p q)
         end;
  repeat match goal with
         | H : context [(?x ?= ?y)%Z] |- _ => destruct (Z.compare_spec x y); simpl in H
         | H : context [(?x ?= ?y)%positive] |- _ => destruct (Pos.compare_spec x y); simpl in H
         | |- context [(?x ?= ?y)%Z] => destruct (Z.compare_spec x y); simpl
         | |- context [(?x ?= ?y)%positive] => destruct (Pos.compare_spec x y); simpl
         end;
  try reflexivity; try congruence; try lia.

(** The keys of the map [computeStatistics] returns for a non-empty slice. *)
Definition statsKeys : gset string :=
  list_to_set [ "count"; "sum"; "mean"; "std_dev"; "variance"; "min"; "max";
                "median"; "p25"; "p75"; "p95"; "p99"; "range" ].

(** [y] is a value [processReportGeneration] can draw in world [w]: the
    float of a number the entropy source yields, or of a clock reading
    modulo 1000. *)
Definition sampleOf (w : World) (y : float) : Prop :=
  (exists (k : nat) (v : Z), w_entropy w k = Some v /\ y = Float64.of_int v) \/
  (exists j : nat, y = Float64.of_int (GoInt.rem (w_clock w j) 1000)).

(** The entropy source keeps the contract of [rand.Int(_, 1000)], and the
    clock shows a time after 1970. *)
Definition entropy_in_range (w : World) : Prop :=
  forall (k : nat) (v : Z), w_entropy w k = Some v -> 0 <= v < 1000.

Definition clock_after_epoch (w : World) : Prop :=
  forall k : nat, 0 <= w_clock w k.



(** The payload key the handler insists on (or supplies) for a job type. *)
Definition requiredKey (jobType : string) : string :=
  if String.eqb jobType "password_hash" then "password" else "data_points".

(** [letters[k]] for an index in range. *)
Definition letterAt (k : Z) : ascii :=
  default "a"%char (String.get (Z.to_nat k) letters).

(** The position of a character in a string, from [k] on. *)
Fixpoint indexFrom (c : ascii) (s : string) (k : Z) : Z :=
  match s with
  | EmptyString => k
  | String c' s' => if Ascii.eqb c c' then k else indexFrom c s' (k + 1)
  end.

Definition letterIndex (c : ascii) : Z := indexFrom c letters 0.

(** The suffix [randString] builds out of the readings of the clock from
    the [tick]-th on, starting at index [i] of the buffer. *)
Fixpoint suffixFrom (count : nat) (i : Z) (clock : nat -> Z) (tick : nat) : string :=
  match count with
  | O => EmptyString
  | S count' =>
      String (letterAt (GoInt.rem (clock tick + i) 36))
             (suffixFrom count' (i + 1) clock (S tick))
  end.

Definition isDigit (c : ascii) : bool :=
  (48 <=? nat_of_ascii c)%nat && (nat_of_ascii c <=? 57)%nat.

Definition isLetter (c : ascii) : bool :=
  existsb (Ascii.eqb c) (String.list_ascii_of_string letters).

(** The pattern [\d{14}-[a-z0-9]{6}]. *)
Definition wellFormedID (id : string) : bool :=
  let cs := String.list_ascii_of_string id in
  (length cs =? 21)%nat
  && forallb isDigit (take 14 cs)
  && match cs !! 14%nat with
     | Some c => Ascii.eqb c "-"
     | None => false
     end
  && forallb isLetter (drop 15 cs).

(** One log line for each entry of a result: what [logResult]'s loop
    writes, in some order. *)
Definition resultLines (result : gmap string value) : list LogEvent :=
  map (fun kv => LogResultField kv.1 kv.2) (map_to_list result).

(** The result of a password job hashed to [hashed] at cost [cost]. *)
Definition hashResult (hashed : string) (cost : Z) : gmap string value :=
  list_to_map [ ("hash_length", VInt (Z.of_nat (String.length hashed)));
                ("cost", VInt cost);
                ("algorithm", VString "bcrypt");
                ("verified", VBool true) ].

(** * Properties *)

(** ** Machine arithmetic *)

Lemma wrap_small (z : Z) : GoInt.minInt <= z <= GoInt.maxInt -> GoInt.wrap z = z.
Proof.
  unfold GoInt.minInt, GoInt.maxInt, GoInt.wrap.
  change (2 ^ 63) with 9223372036854775808.
  change (2 ^ 64) with 18446744073709551616.
  intros H. rewrite Z.mod_small; lia.
Qed.

Lemma maxLen_value : Slice.maxLen = 35184372088832.
Proof. reflexivity. Qed.

Section Indices.
Variable n : Z.
Hypothesis n_pos : 1 <= n.
Hypothesis n_max : n <= Slice.maxLen.

Lemma quot_const (k d : Z) :
  0 <= k <= 99 -> 0 < d ->
  GoInt.quot (GoInt.mul k n) d = k * n / d.
Proof using n_pos n_max.
  intros Hk Hd. rewrite maxLen_value in n_max.
  unfold GoInt.quot, GoInt.mul.
  assert (Hkn : 0 <= k * n <= 99 * 35184372088832) by nia.
  rewrite (wrap_small (k * n)) by (unfold GoInt.minInt, GoInt.maxInt; lia).
  rewrite Z.quot_div_nonneg by lia.
  assert (0 <= k * n / d <= k * n).
  { split; [apply Z.div_pos; lia|]. apply Z.div_le_upper_bound; nia. }
  apply wrap_small. unfold GoInt.minInt, GoInt.maxInt; lia.
Qed.

Lemma quot_n (d : Z) : 0 < d -> GoInt.quot n d = n / d.
Proof using n_pos n_max.
  intros Hd. rewrite maxLen_value in n_max. unfold GoInt.quot.
  rewrite Z.quot_div_nonneg by lia.
  assert (0 <= n / d <= n).
  { split; [apply Z.div_pos; lia|]. apply Z.div_le_upper_bound; nia. }
  apply wrap_small. unfold GoInt.minInt, GoInt.maxInt; lia.
Qed.

Lemma half_pred : GoInt.sub (GoInt.quot n 2) 1 = n / 2 - 1.
Proof using n_pos n_max.
  rewrite quot_n by lia. unfold GoInt.sub.
  rewrite maxLen_value in n_max.
  assert (0 <= n / 2 <= n).
  { split; [apply Z.div_pos; lia|]. apply Z.div_le_upper_bound; lia. }
  apply wrap_small. unfold GoInt.minInt, GoInt.maxInt; lia.
Qed.

Lemma rem_mod (d : Z) : 0 < d -> GoInt.rem n d = n mod d.
Proof using n_pos. intros Hd. unfold GoInt.rem. apply Z.rem_mod_nonneg; lia. Qed.

(** Every rank [k*n/d] with [k < d] falls inside a slice of length [n]. *)
Lemma rank_in_bounds (k d : Z) : 0 <= k < d -> 0 <= k * n / d < n.
Proof using n_pos.
  intros Hk. split; [apply Z.div_pos; nia|].
  apply Z.div_lt_upper_bound; nia.
Qed.

Lemma half_pred_in_bounds : n mod 2 = 0 -> 0 <= n / 2 - 1 < n.
Proof using n_pos.
  intros Heven.
  assert (n = 2 * (n / 2)) by (pose proof (Z.div_mod n 2); lia).
  lia.
Qed.

End Indices.

(** ** The order of [sort.Float64s] and the sorted copy *)

Lemma SFcompare_refl (a : spec_float) :
  SFeqb a a = match a with S754_nan => false | _ => true end.
Proof.
  unfold SFeqb. destruct a as [s|s| |s m e]; simpl; try reflexivity.
  - destruct s; reflexivity.
  - rewrite Z.compare_refl, Pos.compare_cont_refl. destruct s; reflexivity.
Qed.

Lemma SFltb_asym (a b : spec_float) : SFltb a b = true -> SFltb b a = false.
Proof.
  unfold SFltb.
  destruct a as [sa|sa| |sa ma ea], b as [sb|sb| |sb mb eb]; simpl;
    try destruct sa; try destruct sb; simpl; try congruence.
  all: rewrite (Z.compare_antisym ea eb);
       replace (PosDef.Pos.compare_cont Eq mb ma)
         with (CompOpp (PosDef.Pos.compare_cont Eq ma mb))
         by (symmetry; apply (Pos.compare_antisym ma mb));
       destruct (ea ?= eb); simpl; try congruence;
       destruct (PosDef.Pos.compare_cont Eq ma mb); simpl; congruence.
Qed.

Lemma SFltb_nan_r (a b : spec_float) : SFeqb b b = false -> SFltb a b = false.
Proof.
  rewrite SFcompare_refl. destruct b; try discriminate.
  intros _. unfold SFltb. destruct a; reflexivity.
Qed.

Lemma SFltb_not_nan (a b : spec_float) :
  SFltb a b = true -> SFeqb a a = true /\ SFeqb b b = true.
Proof.
  rewrite !SFcompare_refl. unfold SFltb.
  destruct a, b; simpl; try discriminate; auto.
Qed.

(** [Float64.less] is asymmetric. *)
Lemma less_asym (x y : float) : Float64.less x y = true -> Float64.less y x = false.
Proof.
  unfold Float64.less, is_nan. rewrite !FloatAxioms.eqb_spec, !FloatAxioms.ltb_spec.
  set (a := Prim2SF x). set (b := Prim2SF y).
  destruct (SFeqb a a) eqn:Ha; destruct (SFeqb b b) eqn:Hb; simpl.
  - apply SFltb_asym.
  - rewrite (SFltb_nan_r a b Hb). discriminate.
  - intros _. apply SFltb_nan_r; assumption.
  - rewrite (SFltb_nan_r a b Hb). discriminate.
Qed.

Lemma insert_perm (x : float) (l : list float) : Float64.insert x l ≡ₚ x :: l.
Proof.
  induction l as [|h t IH]; simpl; [reflexivity|].
  destruct (Float64.less x h); [reflexivity|].
  rewrite IH. apply perm_swap.
Qed.

Lemma fold_insert_perm (l : list float) :
  forall acc : list float,
    fold_left (fun sorted x => Float64.insert x sorted) l acc ≡ₚ acc ++ l.
Proof.
  induction l as [|h t IH]; intros acc; simpl; [now rewrite app_nil_r|].
  rewrite IH, insert_perm. apply (Permutation_middle acc t h).
Qed.

Lemma sort_perm (l : list float) : Float64.sort l ≡ₚ l.
Proof. unfold Float64.sort. apply (fold_insert_perm l []). Qed.

Lemma sort_length (l : list float) : length (Float64.sort l) = length l.
Proof. apply Permutation_length, sort_perm. Qed.

(** Values that compare equal stay in input order: the two zeros. *)
Lemma sort_zeros :
  Float64.sort [0; -0]%float = [0; -0]%float /\
  Float64.sort [-0; 0]%float = [-0; 0]%float /\
  [0; -0]%float <> [-0; 0]%float.
Proof.
  split; [vm_compute; reflexivity|]. split; [vm_compute; reflexivity|].
  intros H.
  apply (f_equal (fun l => match l with
                           | x :: _ => PrimFloat.ltb (1 / x) 0
                           | [] => false
                           end)) in H.
  vm_compute in H. discriminate.
Qed.

Lemma insert_HdRel (a x : float) (l : list float) :
  inOrder a x -> HdRel inOrder a l -> HdRel inOrder a (Float64.insert x l).
Proof.
  intros Hax Hal. destruct l as [|h t]; simpl; [constructor; assumption|].
  destruct (Float64.less x h); constructor; [assumption|].
  inversion Hal; assumption.
Qed.

Lemma insert_sorted (x : float) (l : list float) :
  Sorted inOrder l -> Sorted inOrder (Float64.insert x l).
Proof.
  induction 1 as [|h t Hs IH Hhd]; simpl; [repeat constructor|].
  destruct (Float64.less x h) eqn:Hxh.
  - constructor; [constructor; assumption|].
    constructor. unfold inOrder. apply less_asym; assumption.
  - constructor; [assumption|]. apply insert_HdRel; assumption.
Qed.

Lemma fold_insert_sorted (l : list float) :
  forall acc : list float,
    Sorted inOrder acc ->
    Sorted inOrder (fold_left (fun sorted x => Float64.insert x sorted) l acc).
Proof.
  induction l as [|h t IH]; intros acc Hacc; simpl; [assumption|].
  apply IH, insert_sorted, Hacc.
Qed.

Lemma sort_sorted (l : list float) : Sorted inOrder (Float64.sort l).
Proof. unfold Float64.sort. apply fold_insert_sorted. constructor. Qed.

Lemma SFltb_trans (a b c : spec_float) :
  SFltb a b = true -> SFltb b c = true -> SFltb a c = true.
Proof.
  unfold SFltb.
  destruct a as [[]|[]| |[] ma ea], b as [[]|[]| |[] mb eb], c as [[]|[]| |[] mc ec];
    simpl; try congruence; intros Hab Hbc; order_cases.
Qed.

Lemma SFless_negtrans (a b c : spec_float) :
  SFless b a = false -> SFless c b = false -> SFless c a = false.
Proof.
  unfold SFless, SFltb, SFeqb.
  destruct a as [[]|[]| |[] ma ea], b as [[]|[]| |[] mb eb], c as [[]|[]| |[] mc ec];
    simpl; try congruence; intros Hab Hbc; order_cases.
Qed.

Lemma less_spec (x y : float) : Float64.less x y = SFless (Prim2SF x) (Prim2SF y).
Proof.
  unfold Float64.less, SFless, is_nan.
  now rewrite !FloatAxioms.eqb_spec, FloatAxioms.ltb_spec.
Qed.

Lemma ltb_trans (x y z : float) :
  (x <? y)%float = true -> (y <? z)%float = true -> (x <? z)%float = true.
Proof. rewrite !FloatAxioms.ltb_spec. apply SFltb_trans. Qed.

Lemma ltb_irrefl (x : float) : (x <? x)%float = false.
Proof.
  rewrite FloatAxioms.ltb_spec. destruct (SFltb (Prim2SF x) (Prim2SF x)) eqn:H; [|reflexivity].
  now rewrite (SFltb_asym _ _ H) in H.
Qed.

Lemma inOrder_refl (a : float) : inOrder a a.
Proof.
  unfold inOrder. destruct (Float64.less a a) eqn:H; [|reflexivity].
  now rewrite (less_asym _ _ H) in H.
Qed.

Lemma inOrder_trans (a b c : float) : inOrder a b -> inOrder b c -> inOrder a c.
Proof. unfold inOrder. rewrite !less_spec. apply SFless_negtrans. Qed.

Lemma inOrder_total (a b : float) : inOrder a b \/ inOrder b a.
Proof.
  unfold inOrder. destruct (Float64.less b a) eqn:H; [|now left].
  right. now apply less_asym.
Qed.

Lemma sort_strongly_sorted (l : list float) : StronglySorted inOrder (Float64.sort l).
Proof.
  apply Sorted_StronglySorted; [|apply sort_sorted].
  intros a b c. apply inOrder_trans.
Qed.

Lemma StronglySorted_lookup_le (l : list float) :
  StronglySorted inOrder l ->
  forall (i j : nat) (a b : float),
    (i <= j)%nat -> l !! i = Some a -> l !! j = Some b -> inOrder a b.
Proof.
  induction 1 as [|h t Hs IH Hall]; intros i j a b Hij Ha Hb; [discriminate|].
  destruct i as [|i], j as [|j]; simpl in *; try lia.
  - injection Ha as <-. injection Hb as <-. apply inOrder_refl.
  - injection Ha as <-. rewrite Forall_forall in Hall. apply Hall.
    eapply list_elem_of_lookup_2. exact Hb.
  - apply (IH i j); [lia|assumption|assumption].
Qed.

(** ** Running the monad *)

Lemma bind_run {A B} (m : Go A) (k : A -> Go B) (w w' : World) (a : A) :
  m w = Done a w' -> bind m k w = k a w'.
Proof. intros H. unfold bind. now rewrite H. Qed.

Lemma bind_panicked {A B} (m : Go A) (k : A -> Go B) (w w' : World) (msg : string) :
  m w = Panicked msg w' -> bind m k w = Panicked msg w'.
Proof. intros H. unfold bind. now rewrite H. Qed.

Lemma heap_set_heap (h : list (list float)) (w : World) : w_heap (set_heap h w) = h.
Proof. reflexivity. Qed.

Lemma set_heap_set_heap (h h' : list (list float)) (w : World) :
  set_heap h (set_heap h' w) = set_heap h w.
Proof. reflexivity. Qed.

Section SliceRuns.
Variables (w : World) (s : Slice.t) (xs : list float).
Hypothesis Hs : w_heap w !! s = Some xs.

Lemma contents_run : Slice.contents s w = Done xs w.
Proof using Hs. unfold Slice.contents. now rewrite Hs. Qed.

Lemma len_run : Slice.len s w = Done (Z.of_nat (length xs)) w.
Proof using Hs. unfold Slice.len. now rewrite (bind_run _ _ _ _ _ contents_run). Qed.

Lemma rangeFold_run {B} (f : B -> float -> B) (b : B) :
  Slice.rangeFold f b s w = Done (fold_left f xs b) w.
Proof using Hs. unfold Slice.rangeFold. now rewrite (bind_run _ _ _ _ _ contents_run). Qed.

Lemma index_run (i : Z) :
  0 <= i < Z.of_nat (length xs) -> Slice.index s i w = Done (rank xs i) w.
Proof using Hs.
  intros Hi. unfold Slice.index. rewrite (bind_run _ _ _ _ _ contents_run).
  destruct (Z.ltb_spec i 0) as [?|_]; [lia|].
  unfold rank. destruct (lookup_lt_is_Some_2 xs (Z.to_nat i)) as [x Hx]; [lia|].
  now rewrite Hx.
Qed.

Lemma index_panics (i : Z) :
  i < 0 \/ Z.of_nat (length xs) <= i ->
  Slice.index s i w = Panicked (boundsError i (Z.of_nat (length xs))) w.
Proof using Hs.
  intros Hi. unfold Slice.index. rewrite (bind_run _ _ _ _ _ contents_run).
  destruct (Z.ltb_spec i 0) as [?|?]; [reflexivity|].
  rewrite (lookup_ge_None_2 xs (Z.to_nat i)) by lia. reflexivity.
Qed.

Lemma sortFloat64s_run :
  Slice.sortFloat64s s w = Done tt (set_heap (<[s := Float64.sort xs]> (w_heap w)) w).
Proof using Hs.
  unfold Slice.sortFloat64s. now rewrite (bind_run _ _ _ _ _ contents_run).
Qed.

End SliceRuns.

Lemma make_run (w : World) (n : Z) :
  0 <= n <= Slice.maxLen ->
  Slice.make n w =
    Done (length (w_heap w)) (set_heap (w_heap w ++ [replicate (Z.to_nat n) 0%float]) w).
Proof.
  intros Hn. unfold Slice.make.
  destruct (Z.ltb_spec n 0); [lia|]. destruct (Z.ltb_spec Slice.maxLen n); [lia|].
  reflexivity.
Qed.

Lemma make_panics (w : World) (n : Z) :
  n < 0 \/ Slice.maxLen < n ->
  Slice.make n w = Panicked "runtime error: makeslice: len out of range" w.
Proof.
  intros Hn. unfold Slice.make.
  destruct (Z.ltb_spec n 0); [reflexivity|].
  destruct (Z.ltb_spec Slice.maxLen n); [reflexivity|lia].
Qed.

Lemma copy_run (w : World) (dst src : Slice.t) (d xs : list float) :
  w_heap w !! dst = Some d -> w_heap w !! src = Some xs -> length d = length xs ->
  Slice.copy dst src w = Done (Z.of_nat (length xs)) (set_heap (<[dst := xs]> (w_heap w)) w).
Proof.
  intros Hd Hx Hlen. unfold Slice.copy.
  rewrite (bind_run _ _ _ _ _ (contents_run w dst d Hd)).
  rewrite (bind_run _ _ _ _ _ (contents_run w src xs Hx)).
  rewrite Hlen, Nat.min_id, firstn_all.
  rewrite <- Hlen, drop_all, app_nil_r. rewrite Hlen. reflexivity.
Qed.

(** The run of [computeStatistics] on a slice that holds [xs]. *)
Lemma computeStatistics_empty (w : World) (data : Slice.t) :
  w_heap w !! data = Some [] ->
  computeStatistics data w = Done {[ "error" := VString "empty dataset" ]} w.
Proof.
  intros Hd. unfold computeStatistics.
  rewrite (bind_run _ _ _ _ _ (len_run w data [] Hd)). reflexivity.
Qed.

Lemma computeStatistics_run (w : World) (data : Slice.t) (xs : list float) :
  w_heap w !! data = Some xs -> xs <> [] ->
  Z.of_nat (length xs) <= Slice.maxLen ->
  computeStatistics data w =
    Done (statisticsOf xs) (set_heap (w_heap w ++ [Float64.sort xs]) w).
Proof.
  intros Hd Hne Hmax. unfold statisticsOf.
  set (n := Z.of_nat (length xs)).
  assert (Hn : 1 <= n) by (destruct xs; [congruence|]; unfold n; simpl; lia).
  unfold computeStatistics.
  rewrite (bind_run _ _ _ _ _ (len_run w data xs Hd)). fold n.
  destruct (Z.eqb_spec n 0) as [?|_]; [lia|].
  rewrite (bind_run _ _ _ _ _ (rangeFold_run w data xs Hd _ _)).
  rewrite (bind_run _ _ _ _ _ (rangeFold_run w data xs Hd _ _)).
  rewrite (bind_run _ _ _ _ _ (index_run w data xs Hd 0 ltac:(lia))).
  rewrite (bind_run _ _ _ _ _ (rangeFold_run w data xs Hd _ _)).
  rewrite (bind_run _ _ _ _ _ (rangeFold_run w data xs Hd _ _)).
  rewrite (bind_run _ _ _ _ _ (make_run w n ltac:(lia))).
  set (h := w_heap w).
  set (w1 := set_heap (h ++ [replicate (Z.to_nat n) 0%float]) w).
  assert (H1s : w_heap w1 !! length h = Some (replicate (Z.to_nat n) 0%float)).
  { unfold w1. rewrite heap_set_heap. apply list_lookup_middle. reflexivity. }
  assert (H1d : w_heap w1 !! data = Some xs).
  { unfold w1. rewrite heap_set_heap. apply lookup_app_l_Some. exact Hd. }
  rewrite (bind_run _ _ _ _ _ (copy_run w1 (length h) data _ xs H1s H1d
             ltac:(rewrite length_replicate; unfold n; lia))).
  set (w2 := set_heap (<[length h := xs]> (w_heap w1)) w1).
  assert (H2s : w_heap w2 !! length h = Some xs).
  { unfold w2. rewrite heap_set_heap. apply list_lookup_insert_eq.
    unfold w1. rewrite heap_set_heap, length_app. simpl. lia. }
  rewrite (bind_run _ _ _ _ _ (sortFloat64s_run w2 (length h) xs H2s)).
  set (w3 := set_heap (<[length h := Float64.sort xs]> (w_heap w2)) w2).
  assert (Hw3 : w3 = set_heap (h ++ [Float64.sort xs]) w).
  { unfold w3, w2, w1. rewrite !heap_set_heap, !set_heap_set_heap.
    f_equal. rewrite list_insert_insert_eq.
    replace (length h) with (length h + 0)%nat at 1 by lia.
    rewrite insert_app_r. reflexivity. }
  assert (H3s : w_heap w3 !! length h = Some (Float64.sort xs)).
  { rewrite Hw3, heap_set_heap. apply list_lookup_middle. reflexivity. }
  assert (Hlen : Z.of_nat (length (Float64.sort xs)) = n)
    by (rewrite sort_length; reflexivity).
  assert (Hidx : forall i, 0 <= i < n ->
            Slice.index (length h) i w3 = Done (rank (Float64.sort xs) i) w3).
  { intros i Hi. apply index_run; [exact H3s | lia]. }
  assert (Hrank : forall k d, 0 <= k < d -> 0 <= k * n / d < n)
    by (intros k d; apply rank_in_bounds; exact Hn).
  assert (Hhalf : 0 <= n / 2 < n) by (specialize (Hrank 1 2); rewrite Z.mul_1_l in Hrank; lia).
  assert (Hquarter : 0 <= n / 4 < n) by (specialize (Hrank 1 4); rewrite Z.mul_1_l in Hrank; lia).
  rewrite !(half_pred n Hn Hmax).
  rewrite !(quot_n n Hn Hmax 2), !(quot_n n Hn Hmax 4) by lia.
  rewrite !(quot_const n Hn Hmax) by lia.
  rewrite !(rem_mod n Hn 2) by lia.
  rewrite (bind_run _ _ _ _ _ (Hidx (n / 2) Hhalf)).
  destruct (Z.eqb_spec (n mod 2) 0) as [Heven|Hodd].
  - erewrite (bind_run (let* lo := Slice.index _ _ in _)); cycle 1.
    { rewrite (bind_run _ _ _ _ _ (Hidx (n / 2 - 1) (half_pred_in_bounds n Hn Heven))).
      rewrite (bind_run _ _ _ _ _ (Hidx (n / 2) Hhalf)). reflexivity. }
    rewrite (bind_run _ _ _ _ _ (Hidx (n / 4) Hquarter)).
    rewrite (bind_run _ _ _ _ _ (Hidx (3 * n / 4) (Hrank 3 4 ltac:(lia)))).
    rewrite (bind_run _ _ _ _ _ (Hidx (95 * n / 100) (Hrank 95 100 ltac:(lia)))).
    rewrite (bind_run _ _ _ _ _ (Hidx (99 * n / 100) (Hrank 99 100 ltac:(lia)))).
    unfold ret. rewrite Hw3. reflexivity.
  - rewrite (bind_run _ _ _ _ _ (eq_refl : ret _ w3 = Done _ w3)).
    rewrite (bind_run _ _ _ _ _ (Hidx (n / 4) Hquarter)).
    rewrite (bind_run _ _ _ _ _ (Hidx (3 * n / 4) (Hrank 3 4 ltac:(lia)))).
    rewrite (bind_run _ _ _ _ _ (Hidx (95 * n / 100) (Hrank 95 100 ltac:(lia)))).
    rewrite (bind_run _ _ _ _ _ (Hidx (99 * n / 100) (Hrank 99 100 ltac:(lia)))).
    unfold ret. rewrite Hw3. reflexivity.
Qed.

Lemma computeStatistics_dangling (w : World) (data : Slice.t) :
  w_heap w !! data = None ->
  computeStatistics data w = Panicked "runtime error: invalid memory address" w.
Proof.
  intros Hd. unfold computeStatistics, Slice.len.
  apply bind_panicked, bind_panicked. unfold Slice.contents. now rewrite Hd.
Qed.

Lemma computeStatistics_too_long (w : World) (data : Slice.t) (xs : list float) :
  w_heap w !! data = Some xs -> Slice.maxLen < Z.of_nat (length xs) ->
  computeStatistics data w = Panicked "runtime error: makeslice: len out of range" w.
Proof.
  intros Hd Hmax. pose proof maxLen_value as Hv.
  unfold computeStatistics.
  rewrite (bind_run _ _ _ _ _ (len_run w data xs Hd)).
  destruct (Z.eqb_spec (Z.of_nat (length xs)) 0) as [?|_]; [lia|].
  rewrite (bind_run _ _ _ _ _ (rangeFold_run w data xs Hd _ _)).
  rewrite (bind_run _ _ _ _ _ (rangeFold_run w data xs Hd _ _)).
  rewrite (bind_run _ _ _ _ _ (index_run w data xs Hd 0 ltac:(lia))).
  rewrite (bind_run _ _ _ _ _ (rangeFold_run w data xs Hd _ _)).
  rewrite (bind_run _ _ _ _ _ (rangeFold_run w data xs Hd _ _)).
  apply bind_panicked, make_panics. lia.
Qed.

(** The entries of the result map. *)
Lemma stats_entries (c s me sd va mi ma md q25 q75 q95 q99 ra : value) :
  let m : gmap string value :=
    list_to_map
      [ ("count", c); ("sum", s); ("mean", me); ("std_dev", sd); ("variance", va);
        ("min", mi); ("max", ma); ("median", md); ("p25", q25); ("p75", q75);
        ("p95", q95); ("p99", q99); ("range", ra) ] in
  m !! "count" = Some c /\ m !! "sum" = Some s /\ m !! "mean" = Some me /\
  m !! "std_dev" = Some sd /\ m !! "variance" = Some va /\ m !! "min" = Some mi /\
  m !! "max" = Some ma /\ m !! "median" = Some md /\ m !! "p25" = Some q25 /\
  m !! "p75" = Some q75 /\ m !! "p95" = Some q95 /\ m !! "p99" = Some q99 /\
  m !! "range" = Some ra /\ m !! "error" = None.
Proof. repeat split; vm_compute; reflexivity. Qed.

Lemma rank_lookup (l : list float) (i : Z) :
  0 <= i < Z.of_nat (length l) -> l !! Z.to_nat i = Some (rank l i).
Proof.
  intros Hi. unfold rank.
  destruct (lookup_lt_is_Some_2 l (Z.to_nat i)) as [x Hx]; [lia|]. now rewrite Hx.
Qed.

Lemma percent_quarter (n : Z) : 25 * n / 100 = n / 4.
Proof. change 100 with (25 * 4). apply Z.div_mul_cancel_l; lia. Qed.

Lemma percent_three_quarters (n : Z) : 75 * n / 100 = 3 * n / 4.
Proof.
  replace (75 * n) with (25 * (3 * n)) by lia. change 100 with (25 * 4).
  apply Z.div_mul_cancel_l; lia.
Qed.

Lemma percent_half (n : Z) : 50 * n / 100 = n / 2.
Proof. change 100 with (50 * 2). apply Z.div_mul_cancel_l; lia. Qed.

(** ** The statistics engine *)

(** C10.  On a non-empty slice of [n] floats (of a length the runtime can
    allocate), the ranks [n/2], [n/4], [3*n/4], [95*n/100] and [99*n/100], as
    the machine computes them, lie in [[0, n)], and so does [n/2 - 1] when [n]
    is even: no element access is out of range and [computeStatistics] returns
    its map. *)
Theorem computeStatistics_indices_in_bounds
    (w : World) (data : Slice.t) (xs : list float) :
  w_heap w !! data = Some xs -> xs <> [] ->
  Z.of_nat (length xs) <= Slice.maxLen ->
  let n := Z.of_nat (length xs) in
  0 <= GoInt.quot n 2 < n /\
  0 <= GoInt.quot n 4 < n /\
  0 <= GoInt.quot (GoInt.mul 3 n) 4 < n /\
  0 <= GoInt.quot (GoInt.mul 95 n) 100 < n /\
  0 <= GoInt.quot (GoInt.mul 99 n) 100 < n /\
  (GoInt.rem n 2 = 0 -> 0 <= GoInt.sub (GoInt.quot n 2) 1 < n) /\
  exists m w', computeStatistics data w = Done m w'.
Proof.
  intros Hd Hne Hmax n.
  assert (Hn : 1 <= n) by (destruct xs; [congruence|]; unfold n; simpl; lia).
  assert (Hrank : forall k d, 0 <= k < d -> 0 <= k * n / d < n)
    by (intros k d; apply rank_in_bounds; exact Hn).
  rewrite (half_pred n Hn Hmax), !(quot_n n Hn Hmax) by lia.
  rewrite !(quot_const n Hn Hmax) by lia. rewrite (rem_mod n Hn 2) by lia.
  repeat split; try (apply Hrank; lia).
  - apply Z.div_pos; lia.
  - specialize (Hrank 1 2). rewrite Z.mul_1_l in Hrank. lia.
  - apply Z.div_pos; lia.
  - specialize (Hrank 1 4). rewrite Z.mul_1_l in Hrank. lia.
  - apply (half_pred_in_bounds n Hn); assumption.
  - apply (half_pred_in_bounds n Hn); assumption.
  - eexists _, _. apply computeStatistics_run; eassumption.
Qed.

Lemma computeStatistics_indices_in_bounds_witness :
  let w := exampleWorld [[3; 1; 2]%float] in
  let n := 3 in
  w_heap w !! 0%nat = Some [3; 1; 2]%float /\
  (0 <= GoInt.quot n 2 < n /\
   0 <= GoInt.quot n 4 < n /\
   0 <= GoInt.quot (GoInt.mul 3 n) 4 < n /\
   0 <= GoInt.quot (GoInt.mul 95 n) 100 < n /\
   0 <= GoInt.quot (GoInt.mul 99 n) 100 < n /\
   (GoInt.rem n 2 = 0 -> 0 <= GoInt.sub (GoInt.quot n 2) 1 < n) /\
   exists m w', computeStatistics 0%nat w = Done m w').
Proof.
  split; [reflexivity|].
  apply (computeStatistics_indices_in_bounds (exampleWorld [[3; 1; 2]%float]) 0%nat
           [3; 1; 2]%float);
    [reflexivity | discriminate | vm_compute; discriminate].
Defined.

(** C8.  [computeStatistics] leaves the caller's slice as it found it: the
    sorting happens in a freshly allocated copy, and whatever the call's
    outcome, every slice that existed before it, the input among them, holds
    the same elements in the same order afterwards. *)
Theorem computeStatistics_preserves_input
    (w : World) (data : Slice.t) (xs : list float) :
  w_heap w !! data = Some xs ->
  let w' := outcome_world (computeStatistics data w) in
  w_heap w' !! data = Some xs /\
  (forall (s : Slice.t) (ys : list float),
      w_heap w !! s = Some ys -> w_heap w' !! s = Some ys) /\
  (w_heap w' = w_heap w \/ w_heap w' = w_heap w ++ [Float64.sort xs]).
Proof.
  intros Hd w'.
  assert (Hcases : w_heap w' = w_heap w \/ w_heap w' = w_heap w ++ [Float64.sort xs]).
  { unfold w'. destruct xs as [|x xs'] eqn:Hxs.
    - rewrite (computeStatistics_empty w data Hd). now left.
    - destruct (Z_le_gt_dec (Z.of_nat (length (x :: xs'))) Slice.maxLen) as [Hle|Hgt].
      + rewrite (computeStatistics_run w data (x :: xs') Hd ltac:(discriminate) Hle).
        now right.
      + rewrite (computeStatistics_too_long w data (x :: xs') Hd ltac:(lia)). now left. }
  assert (Hframe : forall (s : Slice.t) (ys : list float),
             w_heap w !! s = Some ys -> w_heap w' !! s = Some ys).
  { intros s ys Hs. destruct Hcases as [-> | ->]; [exact Hs|].
    apply lookup_app_l_Some. exact Hs. }
  auto.
Qed.

Lemma computeStatistics_preserves_input_witness :
  let w := exampleWorld [[3; 1; 2]%float] in
  let w' := outcome_world (computeStatistics 0%nat w) in
  w_heap w !! 0%nat = Some [3; 1; 2]%float /\
  (w_heap w' !! 0%nat = Some [3; 1; 2]%float /\
   (forall (s : Slice.t) (ys : list float),
       w_heap w !! s = Some ys -> w_heap w' !! s = Some ys) /\
   (w_heap w' = w_heap w \/ w_heap w' = w_heap w ++ [Float64.sort [3; 1; 2]%float])).
Proof.
  split; [reflexivity|].
  apply (computeStatistics_preserves_input (exampleWorld [[3; 1; 2]%float]) 0%nat).
  reflexivity.
Defined.

(** The entries of [statisticsOf] that hold the median and the percentiles. *)
Lemma statisticsOf_ranks (xs : list float) :
  let n := Z.of_nat (length xs) in
  let sorted := Float64.sort xs in
  statisticsOf xs !! "median" =
    Some (VFloat (if GoInt.rem n 2 =? 0
                  then ((rank sorted (GoInt.sub (GoInt.quot n 2) 1)
                         + rank sorted (GoInt.quot n 2)) / 2)%float
                  else rank sorted (GoInt.quot n 2))) /\
  statisticsOf xs !! "p25" = Some (VFloat (rank sorted (GoInt.quot n 4))) /\
  statisticsOf xs !! "p75" = Some (VFloat (rank sorted (GoInt.quot (GoInt.mul 3 n) 4))) /\
  statisticsOf xs !! "p95" = Some (VFloat (rank sorted (GoInt.quot (GoInt.mul 95 n) 100))) /\
  statisticsOf xs !! "p99" = Some (VFloat (rank sorted (GoInt.quot (GoInt.mul 99 n) 100))).
Proof.
  intros n sorted. subst n sorted. unfold statisticsOf. cbv zeta.
  lazymatch goal with
  | |- list_to_map [(_, ?c); (_, ?s); (_, ?me); (_, ?sd); (_, ?va); (_, ?mi);
                    (_, ?ma); (_, ?md); (_, ?a); (_, ?b); (_, ?e); (_, ?f);
                    (_, ?ra)] !! _ = _ /\ _ =>
      pose proof (stats_entries c s me sd va mi ma md a b e f ra) as Hent
  end.
  cbv zeta in Hent. intuition.
Qed.

(** The median of a non-empty slice: the mean of the two middle elements of
    the sorted copy when the length is even, the element at [n/2] otherwise. *)
Lemma computeStatistics_median (w : World) (d : Slice.t) (xs : list float) :
  w_heap w !! d = Some xs -> xs <> [] -> Z.of_nat (length xs) <= Slice.maxLen ->
  let n := Z.of_nat (length xs) in
  let sorted := Float64.sort xs in
  outcome_value (computeStatistics d w) = Some (statisticsOf xs) /\
  (n mod 2 = 0 ->
     exists lo hi, sorted !! Z.to_nat (n / 2 - 1) = Some lo /\
                   sorted !! Z.to_nat (n / 2) = Some hi /\
                   statisticsOf xs !! "median" = Some (VFloat ((lo + hi) / 2)%float)) /\
  (n mod 2 <> 0 ->
     exists mid, sorted !! Z.to_nat (n / 2) = Some mid /\
                 statisticsOf xs !! "median" = Some (VFloat mid)).
Proof.
  intros Hd Hne Hmax n sorted.
  rewrite (computeStatistics_run w d xs Hd Hne Hmax). split; [reflexivity|].
  assert (Hn : 1 <= n) by (destruct xs; [congruence|]; unfold n; simpl; lia).
  assert (Hlen : Z.of_nat (length sorted) = n)
    by (unfold sorted; rewrite sort_length; reflexivity).
  assert (Hhalf : 0 <= n / 2 < n).
  { pose proof (rank_in_bounds n Hn 1 2 ltac:(lia)) as H.
    now rewrite Z.mul_1_l in H. }
  pose proof (statisticsOf_ranks xs) as (Hmed & _). fold n sorted in Hmed.
  rewrite (half_pred n Hn Hmax), (quot_n n Hn Hmax 2), (rem_mod n Hn 2) in Hmed by lia.
  split.
  - intros Heven. rewrite Heven in Hmed. simpl in Hmed.
    exists (rank sorted (n / 2 - 1)), (rank sorted (n / 2)).
    repeat split; [apply rank_lookup | apply rank_lookup | exact Hmed].
    + rewrite Hlen. apply (half_pred_in_bounds n Hn Heven).
    + rewrite Hlen. exact Hhalf.
  - intros Hodd. destruct (Z.eqb_spec (n mod 2) 0) as [?|_]; [contradiction|].
    exists (rank sorted (n / 2)). split; [apply rank_lookup; lia | exact Hmed].
Qed.

(** C6.  [computeStatistics] is a function of the slice contents alone; on
    [[1,2,3,4,5]] it yields mean 3, min 1, max 5, median 3 and range 4, and
    the same on [[5,3,1,4,2]]; for a non-empty slice there is a sorted
    permutation of its contents (the sorted copy) such that the median is the
    mean of its two middle values for an even length and its value at the
    integer quotient [n/2] for an odd one; on the empty slice the map holds
    the empty-dataset marker and nothing else. *)
Theorem computeStatistics_deterministic :
  (forall (w1 w2 : World) (d1 d2 : Slice.t) (xs : list float),
      w_heap w1 !! d1 = Some xs -> w_heap w2 !! d2 = Some xs ->
      outcome_value (computeStatistics d1 w1) = outcome_value (computeStatistics d2 w2)) /\
  (forall (w : World) (d : Slice.t) (xs : list float),
      xs = [1; 2; 3; 4; 5]%float \/ xs = [5; 3; 1; 4; 2]%float ->
      w_heap w !! d = Some xs ->
      exists m, outcome_value (computeStatistics d w) = Some m /\
        m !! "mean" = Some (VFloat 3) /\ m !! "min" = Some (VFloat 1) /\
        m !! "max" = Some (VFloat 5) /\ m !! "median" = Some (VFloat 3) /\
        m !! "range" = Some (VFloat 4)) /\
  (forall (w : World) (d : Slice.t) (xs : list float),
      w_heap w !! d = Some xs -> xs <> [] -> Z.of_nat (length xs) <= Slice.maxLen ->
      exists (m : gmap string value) (sorted : list float),
        outcome_value (computeStatistics d w) = Some m /\
        sorted ≡ₚ xs /\ StronglySorted inOrder sorted /\
        let n := Z.of_nat (length xs) in
        (n mod 2 = 0 ->
           exists lo hi, sorted !! Z.to_nat (n / 2 - 1) = Some lo /\
                         sorted !! Z.to_nat (n / 2) = Some hi /\
                         m !! "median" = Some (VFloat ((lo + hi) / 2)%float)) /\
        (n mod 2 <> 0 ->
           exists mid, sorted !! Z.to_nat (n / 2) = Some mid /\
                       m !! "median" = Some (VFloat mid))) /\
  (forall (w : World) (d : Slice.t),
      w_heap w !! d = Some [] ->
      exists m, outcome_value (computeStatistics d w) = Some m /\
        m !! "error" = Some (VString "empty dataset") /\
        dom m = ({[ "error" ]} : gset string)).
Proof.
  split; [|split; [|split]].
  - intros w1 w2 d1 d2 xs H1 H2. destruct xs as [|x xs'].
    + now rewrite (computeStatistics_empty w1 d1 H1), (computeStatistics_empty w2 d2 H2).
    + destruct (Z_le_gt_dec (Z.of_nat (length (x :: xs'))) Slice.maxLen) as [Hle|Hgt].
      * now rewrite (computeStatistics_run w1 d1 _ H1 ltac:(discriminate) Hle),
                    (computeStatistics_run w2 d2 _ H2 ltac:(discriminate) Hle).
      * now rewrite (computeStatistics_too_long w1 d1 _ H1 ltac:(lia)),
                    (computeStatistics_too_long w2 d2 _ H2 ltac:(lia)).
  - intros w d xs Hxs Hd. exists (statisticsOf xs).
    destruct Hxs as [-> | ->];
      rewrite (computeStatistics_run w d _ Hd ltac:(discriminate)
                 ltac:(vm_compute; discriminate));
      (split; [reflexivity|]);
      (split; [vm_compute; reflexivity|]); (split; [vm_compute; reflexivity|]);
      (split; [vm_compute; reflexivity|]); (split; vm_compute; reflexivity).
  - intros w d xs Hd Hne Hmax.
    destruct (computeStatistics_median w d xs Hd Hne Hmax) as (Hm & Heven & Hodd).
    exists (statisticsOf xs), (Float64.sort xs).
    split; [exact Hm|]. split; [apply sort_perm|]. split; [apply sort_strongly_sorted|].
    split; [exact Heven | exact Hodd].
  - intros w d Hd. exists {[ "error" := VString "empty dataset" ]}.
    rewrite (computeStatistics_empty w d Hd).
    split; [reflexivity|]. split; [apply lookup_singleton_eq | apply dom_singleton_L].
Qed.

Lemma computeStatistics_deterministic_witness :
  let five := [1; 2; 3; 4; 5]%float in
  let mixed := [5; 3; 1; 4; 2]%float in
  let four := [4; 1; 3; 2]%float in
  let w := exampleWorld [five; []; five; mixed; four] in
  w_heap w !! 0%nat = Some five /\
  w_heap w !! 1%nat = Some [] /\
  w_heap w !! 2%nat = Some five /\
  w_heap w !! 3%nat = Some mixed /\
  w_heap w !! 4%nat = Some four /\
  outcome_value (computeStatistics 0%nat w) = outcome_value (computeStatistics 2%nat w) /\
  (exists m, outcome_value (computeStatistics 0%nat w) = Some m /\
     m !! "mean" = Some (VFloat 3) /\ m !! "min" = Some (VFloat 1) /\
     m !! "max" = Some (VFloat 5) /\ m !! "median" = Some (VFloat 3) /\
     m !! "range" = Some (VFloat 4)) /\
  (exists m, outcome_value (computeStatistics 3%nat w) = Some m /\
     m !! "mean" = Some (VFloat 3) /\ m !! "min" = Some (VFloat 1) /\
     m !! "max" = Some (VFloat 5) /\ m !! "median" = Some (VFloat 3) /\
     m !! "range" = Some (VFloat 4)) /\
  (exists m sorted mid, outcome_value (computeStatistics 3%nat w) = Some m /\
     sorted ≡ₚ mixed /\ StronglySorted inOrder sorted /\
     sorted !! Z.to_nat (5 / 2) = Some mid /\
     m !! "median" = Some (VFloat mid)) /\
  (exists m sorted lo hi, outcome_value (computeStatistics 4%nat w) = Some m /\
     sorted ≡ₚ four /\ StronglySorted inOrder sorted /\
     sorted !! Z.to_nat (4 / 2 - 1) = Some lo /\
     sorted !! Z.to_nat (4 / 2) = Some hi /\
     m !! "median" = Some (VFloat ((lo + hi) / 2)%float)) /\
  (exists m, outcome_value (computeStatistics 1%nat w) = Some m /\
     m !! "error" = Some (VString "empty dataset") /\
     dom m = ({[ "error" ]} : gset string)).
Proof.
  intros five mixed four w.
  pose proof computeStatistics_deterministic as (Hdet & Hfive & Hmedian & Hempty).
  split; [reflexivity|]. split; [reflexivity|]. split; [reflexivity|].
  split; [reflexivity|]. split; [reflexivity|].
  split; [|split; [|split; [|split; [|split]]]].
  - apply (Hdet w w 0%nat 2%nat five); reflexivity.
  - apply (Hfive w 0%nat five); [left|]; reflexivity.
  - apply (Hfive w 3%nat mixed); [right|]; reflexivity.
  - destruct (Hmedian w 3%nat mixed) as (m & sorted & Hm & Hperm & Hsorted & _ & Hodd);
      [reflexivity | discriminate | vm_compute; discriminate |].
    destruct Hodd as (mid & Hmid & Hmed); [vm_compute; discriminate|].
    exists m, sorted, mid. split; [exact Hm|]. split; [exact Hperm|].
    split; [exact Hsorted|]. split; [exact Hmid | exact Hmed].
  - destruct (Hmedian w 4%nat four) as (m & sorted & Hm & Hperm & Hsorted & Heven & _);
      [reflexivity | discriminate | vm_compute; discriminate |].
    destruct Heven as (lo & hi & Hlo & Hhi & Hmed); [reflexivity|].
    exists m, sorted, lo, hi. split; [exact Hm|]. split; [exact Hperm|].
    split; [exact Hsorted|]. split; [exact Hlo|]. split; [exact Hhi | exact Hmed].
  - apply (Hempty w 1%nat). reflexivity.
Defined.

(** C5, as the code has it.  The percentiles of a non-empty slice are picked
    by nearest rank, without interpolation: there is a sorted permutation of
    the input (the sorted copy) whose elements at index [floor(p*n/100)] are
    p25, p75, p95 and p99.  The median is its element at [floor(50*n/100)] for
    an odd length only; for an even length it is the mean of the two middle
    elements.  The 100 floats 1..100 are in order, their element at index 25
    is 26, and p25 is 26 for them, in that order or reversed. *)
Theorem computeStatistics_nearest_rank :
  (forall (w : World) (d : Slice.t) (xs : list float),
      w_heap w !! d = Some xs -> xs <> [] -> Z.of_nat (length xs) <= Slice.maxLen ->
      exists (m : gmap string value) (sorted : list float),
        outcome_value (computeStatistics d w) = Some m /\
        sorted ≡ₚ xs /\ StronglySorted inOrder sorted /\
        let n := Z.of_nat (length xs) in
        (exists v, sorted !! Z.to_nat (25 * n / 100) = Some v /\ m !! "p25" = Some (VFloat v)) /\
        (exists v, sorted !! Z.to_nat (75 * n / 100) = Some v /\ m !! "p75" = Some (VFloat v)) /\
        (exists v, sorted !! Z.to_nat (95 * n / 100) = Some v /\ m !! "p95" = Some (VFloat v)) /\
        (exists v, sorted !! Z.to_nat (99 * n / 100) = Some v /\ m !! "p99" = Some (VFloat v)) /\
        (n mod 2 <> 0 ->
           exists v, sorted !! Z.to_nat (50 * n / 100) = Some v /\
                     m !! "median" = Some (VFloat v)) /\
        (n mod 2 = 0 ->
           exists lo hi, sorted !! Z.to_nat (n / 2 - 1) = Some lo /\
                         sorted !! Z.to_nat (n / 2) = Some hi /\
                         m !! "median" = Some (VFloat ((lo + hi) / 2)%float))) /\
  StronglySorted inOrder (oneTo 100) /\
  oneTo 100 !! 25%nat = Some 26%float /\
  (forall (w : World) (d : Slice.t) (xs : list float),
      xs = oneTo 100 \/ xs = rev (oneTo 100) ->
      w_heap w !! d = Some xs ->
      exists m, outcome_value (computeStatistics d w) = Some m /\
        m !! "p25" = Some (VFloat 26)).
Proof.
  split; [|split; [|split]].
  - intros w d xs Hd Hne Hmax.
    destruct (computeStatistics_median w d xs Hd Hne Hmax) as (Hm & Heven & Hodd).
    exists (statisticsOf xs), (Float64.sort xs). split; [exact Hm|].
    split; [apply sort_perm|]. split; [apply sort_strongly_sorted|].
    intros n. set (sorted := Float64.sort xs) in *.
    assert (Hn : 1 <= n) by (destruct xs; [congruence|]; unfold n; simpl; lia).
    assert (Hlen : Z.of_nat (length sorted) = n)
      by (unfold sorted; rewrite sort_length; reflexivity).
    assert (Hrank : forall k c, 0 <= k < c -> 0 <= k * n / c < Z.of_nat (length sorted))
      by (intros k c; rewrite Hlen; apply rank_in_bounds; exact Hn).
    destruct (statisticsOf_ranks xs) as (_ & H25 & H75 & H95 & H99).
    fold n sorted in H25, H75, H95, H99.
    rewrite (quot_n n Hn Hmax 4) in H25 by lia.
    rewrite (quot_const n Hn Hmax) in H75, H95, H99 by lia.
    split; [|split; [|split; [|split; [|split]]]].
    + exists (rank sorted (n / 4)). rewrite percent_quarter. split; [|exact H25].
      apply rank_lookup. rewrite <- (Z.mul_1_l n) at 1 2. apply Hrank; lia.
    + exists (rank sorted (3 * n / 4)). rewrite percent_three_quarters.
      split; [|exact H75]. apply rank_lookup, Hrank; lia.
    + exists (rank sorted (95 * n / 100)).
      split; [|exact H95]. apply rank_lookup, Hrank; lia.
    + exists (rank sorted (99 * n / 100)).
      split; [|exact H99]. apply rank_lookup, Hrank; lia.
    + rewrite percent_half. exact Hodd.
    + exact Heven.
  - replace (oneTo 100) with (Float64.sort (oneTo 100)) by (vm_compute; reflexivity).
    apply sort_strongly_sorted.
  - vm_compute. reflexivity.
  - intros w d xs Hxs Hd. exists (statisticsOf xs).
    destruct Hxs as [-> | ->];
      rewrite (computeStatistics_run w d _ Hd ltac:(discriminate)
                 ltac:(vm_compute; discriminate));
      (split; [reflexivity | vm_compute; reflexivity]).
Qed.

Lemma computeStatistics_nearest_rank_witness :
  let w := exampleWorld [oneTo 100; [3; 1; 2]%float; rev (oneTo 100)] in
  w_heap w !! 0%nat = Some (oneTo 100) /\
  w_heap w !! 1%nat = Some [3; 1; 2]%float /\
  w_heap w !! 2%nat = Some (rev (oneTo 100)) /\
  (exists m, outcome_value (computeStatistics 0%nat w) = Some m /\
     m !! "p25" = Some (VFloat 26)) /\
  (exists m, outcome_value (computeStatistics 2%nat w) = Some m /\
     m !! "p25" = Some (VFloat 26)) /\
  (exists m sorted, outcome_value (computeStatistics 1%nat w) = Some m /\
     sorted ≡ₚ [3; 1; 2]%float /\ StronglySorted inOrder sorted /\
     exists v, sorted !! Z.to_nat (75 * 3 / 100) = Some v /\
               m !! "p75" = Some (VFloat v)).
Proof.
  pose proof computeStatistics_nearest_rank as (Hgen & _ & _ & Hhundred).
  intros w.
  split; [reflexivity|]. split; [reflexivity|]. split; [reflexivity|].
  split; [|split].
  - apply (Hhundred w 0%nat (oneTo 100)); [left|]; reflexivity.
  - apply (Hhundred w 2%nat (rev (oneTo 100))); [right|]; reflexivity.
  - destruct (Hgen w 1%nat [3; 1; 2]%float)
      as (m & sorted & Hm & Hperm & Hsorted & _ & H75 & _);
      [reflexivity | discriminate | vm_compute; discriminate |].
    exists m, sorted. split; [exact Hm|]. split; [exact Hperm|].
    split; [exact Hsorted | exact H75].
Defined.

(** C5 as stated fails on the median of an even-length slice: for [[1, 2]]
    the element at index [floor(50*2/100) = 1] of the sorted copy is 2, yet
    the median returned is 1.5, the mean of the two middle elements. *)
Lemma median_even_not_nearest_rank :
  let w := exampleWorld [[1; 2]%float] in
  let sorted := Float64.sort [1; 2]%float in
  exists m, outcome_value (computeStatistics 0%nat w) = Some m /\
    sorted !! Z.to_nat (50 * 2 / 100) = Some 2%float /\
    m !! "median" = Some (VFloat 1.5) /\
    m !! "median" <> VFloat <$> sorted !! Z.to_nat (50 * 2 / 100).
Proof.
  exists (statisticsOf [1; 2]%float).
  split; [vm_compute; reflexivity|]. split; [vm_compute; reflexivity|].
  split; [vm_compute; reflexivity|].
  intros H.
  apply (f_equal (fun o => match o with
                           | Some (VFloat f) => PrimFloat.eqb f 2
                           | _ => false
                           end)) in H.
  vm_compute in H. discriminate.
Qed.

(** ** Job construction *)

Lemma get_letters (k : Z) :
  0 <= k < 36 -> exists c, String.get (Z.to_nat k) letters = Some c.
Proof.
  intros Hk. assert (Hn : (Z.to_nat k < 36)%nat) by lia.
  revert Hn. generalize (Z.to_nat k) as n. intros n Hn.
  do 36 (destruct n as [|n]; [eexists; reflexivity|]). lia.
Qed.

Lemma tick_tick (a b : nat) (w : World) : tick a (tick b w) = tick (a + b) w.
Proof. unfold tick. simpl. now rewrite Nat.add_assoc. Qed.

Lemma clock_sane_tick (n k : nat) (w : World) :
  clock_sane (k + n) w -> clock_sane n (tick k w).
Proof.
  intros H j Hj. simpl. rewrite Nat.add_assoc. apply H. lia.
Qed.

Lemma now_run (w : World) : now w = Done (w_clock w (w_ticks w)) (tick 1 w).
Proof. reflexivity. Qed.

Lemma randStringFrom_run (count : nat) :
  forall (i : Z) (w : World),
    clock_sane count w -> 0 <= i -> i + Z.of_nat count <= 6 ->
    exists s, randStringFrom count i w = Done s (tick count w).
Proof.
  induction count as [|count IH]; intros i w Hsane Hi Hbound.
  - exists EmptyString. destruct w; reflexivity.
  - cbn [randStringFrom]. rewrite (bind_run _ _ _ _ _ (now_run w)).
    set (t := w_clock w (w_ticks w)).
    assert (Ht : 0 <= t <= GoInt.maxInt - 6) by (apply (Hsane 0%nat); lia).
    unfold GoInt.add.
    rewrite (wrap_small (t + i)) by (unfold GoInt.minInt, GoInt.maxInt in *; lia).
    change (Z.of_nat (String.length letters)) with 36.
    assert (Hk : 0 <= GoInt.rem (t + i) 36 < 36)
      by (unfold GoInt.rem; apply Z.rem_bound_pos; lia).
    destruct (Z.ltb_spec (GoInt.rem (t + i) 36) 0) as [?|_]; [lia|].
    destruct (get_letters _ Hk) as (c & ->).
    destruct (IH (i + 1) (tick 1 w)) as (rest & Hrest); [|lia|lia|].
    { apply clock_sane_tick. exact Hsane. }
    rewrite (bind_run _ _ _ _ _ Hrest).
    exists (String c rest). unfold ret. rewrite tick_tick.
    now replace (count + 1)%nat with (S count) by lia.
Qed.

(** When the clock is sane for its eight readings, [NewJob] returns a
    pending job that carries the type and the payload it was given. *)
Lemma NewJob_run (jobType : string) (payload : gomap) (w : World) :
  clock_sane 8 w ->
  exists job, NewJob jobType payload w = Done job (tick 8 w) /\
    job_Type job = jobType /\ job_Payload job = payload /\ job_Status job = "pending".
Proof.
  intros Hsane. unfold NewJob, generateJobID.
  unfold randString. change (6 <? 0) with false. cbv iota.
  destruct (randStringFrom_run (Z.to_nat 6) 0 (tick 1 w)) as (suffix & Hsuffix);
    [|lia|lia|].
  { apply clock_sane_tick. intros k Hk. apply Hsane. simpl in Hk. lia. }
  erewrite (bind_run (let* t := now in _)); cycle 1.
  { rewrite (bind_run _ _ _ _ _ (now_run w)).
    rewrite (bind_run _ _ _ _ _ Hsuffix). reflexivity. }
  rewrite (bind_run _ _ _ _ _ (now_run _)).
  eexists. split; [unfold ret; rewrite !tick_tick; reflexivity|].
  repeat split.
Qed.

(** ** The worker's executors *)

Section WorkerRuns.

Variable gen : nat -> string -> Z -> string + string.
Variable cmp : string -> string -> option string.

(** A password that is missing or is not a string fails the job at
    execution time. *)
Lemma processPasswordHash_invalid (job : Job) (w : World) :
  asString (mapIndex (job_Payload job) "password") = None ->
  processPasswordHash gen cmp job w = Done (inr "invalid password field") w.
Proof. intros H. unfold processPasswordHash. now rewrite H. Qed.

(** An executor error marks the job failed, logs it, and returns. *)
Lemma processJob_error (wk : Worker) (job : Job) (w w' : World) (err : string) :
  execute gen cmp (set_Status "processing" job)
          (outcome_world (logf (LogProcessing (wk_id wk) (job_ID job) (job_Type job))
                               (tick 1 w)))
    = Done (inr err) w' ->
  exists w'', processJob gen cmp wk job w = Done (set_Status "failed" job) w'' /\
    w_log w'' = w_log w' ++ [LogFailed (wk_id wk) (job_ID job) err].
Proof.
  intros Hexec. unfold processJob.
  rewrite (bind_run _ _ _ _ _ (now_run w)).
  erewrite (bind_run (logf _)) by reflexivity.
  simpl in Hexec. rewrite (bind_run _ _ _ _ _ Hexec).
  rewrite (bind_run _ _ _ _ _ (now_run w')).
  eexists. split; reflexivity.
Qed.

Lemma processJob_invalid_password (wk : Worker) (job : Job) (w : World) :
  job_Type job = "password_hash" ->
  asString (mapIndex (job_Payload job) "password") = None ->
  exists w', processJob gen cmp wk job w = Done (set_Status "failed" job) w' /\
    w_log w' = w_log w ++ [LogProcessing (wk_id wk) (job_ID job) "password_hash";
                           LogFailed (wk_id wk) (job_ID job) "invalid password field"].
Proof.
  intros Hty Hpw.
  edestruct (processJob_error wk job w) as (w' & Hrun & Hlog).
  - unfold execute.
    change (job_Type (set_Status "processing" job)) with (job_Type job).
    rewrite Hty. change ("password_hash" =? "password_hash")%string with true.
    cbv iota. apply processPasswordHash_invalid. exact Hpw.
  - exists w'. split; [exact Hrun|]. rewrite Hlog. simpl.
    now rewrite <- app_assoc.
Qed.

Lemma processJob_unknown_type (wk : Worker) (job : Job) (w : World) :
  job_Type job <> "password_hash" -> job_Type job <> "report_generation" ->
  exists w', processJob gen cmp wk job w = Done (set_Status "failed" job) w' /\
    w_log w' = w_log w ++ [LogProcessing (wk_id wk) (job_ID job) (job_Type job);
                           LogFailed (wk_id wk) (job_ID job)
                                     ("unknown job type: " +:+ job_Type job)].
Proof.
  intros H1 H2.
  edestruct (processJob_error wk job w) as (w' & Hrun & Hlog).
  - unfold execute.
    change (job_Type (set_Status "processing" job)) with (job_Type job).
    destruct (String.eqb_spec (job_Type job) "password_hash") as [?|_]; [contradiction|].
    destruct (String.eqb_spec (job_Type job) "report_generation") as [?|_]; [contradiction|].
    reflexivity.
  - exists w'. split; [exact Hrun|]. rewrite Hlog. simpl. now rewrite <- app_assoc.
Qed.

End WorkerRuns.

(** ** Admission *)

Lemma validatePayload_password (payload : gomap) (w : World) :
  validatePayload "password_hash" payload w =
    match mapIndex payload "password" with
    | None => Done (inl (HttpError StatusBadRequest "Missing 'password' field in payload")) w
    | Some _ => Done (inr payload) w
    end.
Proof. unfold validatePayload. cbn. now destruct (mapIndex payload "password"). Qed.

Lemma HandleSubmitJob_validated (ready : bool) (ty : string) (payload : gomap) (w : World) :
  ty = "password_hash" \/ ty = "report_generation" ->
  HandleSubmitJob ready (mkRequest "POST" (Decoded (mkSubmit ty payload))) w =
    (let* checked := validatePayload ty payload in
     match checked with
     | inl early => ret (early, None)
     | inr payload =>
         let* job := NewJob ty payload in
         if ready then
           logf (LogAccepted (job_ID job) (job_Type job)) ;;
           ret (HttpJSON StatusAccepted
                  (list_to_map
                     [ ("status", VString "accepted");
                       ("job_id", VString (job_ID job));
                       ("message", VString ("Job " +:+ job_ID job +:+
                                            " queued for CPU-intensive processing"));
                       ("note", VString "Job will be processed asynchronously. Use job_id to track status (future phases).") ]),
                Some job)
         else
           logf LogQueueFull ;;
           ret (HttpError StatusServiceUnavailable "System overloaded, try again later", None)
     end) w.
Proof. intros [-> | ->]; reflexivity. Qed.

(** Once the payload has passed the checks, the outcome is decided by the
    queue alone: 202 and the job handed over when a worker is waiting, 503 and
    no job otherwise. *)
Lemma HandleSubmitJob_handoff (ready : bool) (ty : string) (payload p : gomap) (w : World) :
  ty = "password_hash" \/ ty = "report_generation" ->
  validatePayload ty payload w = Done (inr p) w ->
  clock_sane 8 w ->
  exists resp sent w',
    HandleSubmitJob ready (mkRequest "POST" (Decoded (mkSubmit ty payload))) w
      = Done (resp, sent) w' /\
    if ready
    then response_code resp = StatusAccepted /\
         exists job, sent = Some job /\ job_Type job = ty /\
                     job_Payload job = p /\ job_Status job = "pending"
    else response_code resp = StatusServiceUnavailable /\ sent = None.
Proof.
  intros Hty Hval Hsane. rewrite (HandleSubmitJob_validated ready ty payload w Hty).
  rewrite (bind_run _ _ _ _ _ Hval).
  destruct (NewJob_run ty p w Hsane) as (job & Hjob & Hjt & Hjp & Hjs).
  rewrite (bind_run _ _ _ _ _ Hjob).
  destruct ready.
  - eexists _, _, _. split; [reflexivity|]. split; [reflexivity|].
    exists job. auto.
  - eexists _, _, _. split; [reflexivity|]. split; reflexivity.
Qed.

(** C1, as the code has it.  Admission of a [password_hash] submission
    requires the [password] key to be present, whatever its value: when the
    key is absent (or there is no payload object) the answer is 400 and no job
    is built or queued; when it is present the job is handed to the queue,
    accepted with 202 if a worker is waiting and refused with 503 otherwise.  A
    password that is not a string is found out by the worker, which fails the
    job. *)
Theorem password_hash_admission (ready : bool) (payload : gomap) (w : World) :
  let r := mkRequest "POST" (Decoded (mkSubmit "password_hash" payload)) in
  (mapIndex payload "password" = None ->
     HandleSubmitJob ready r w =
       Done (HttpError StatusBadRequest "Missing 'password' field in payload", None) w) /\
  (forall v : value, mapIndex payload "password" = Some v -> clock_sane 8 w ->
     exists resp sent w', HandleSubmitJob ready r w = Done (resp, sent) w' /\
       if ready
       then response_code resp = StatusAccepted /\
            exists job, sent = Some job /\ job_Type job = "password_hash" /\
                        job_Payload job = payload /\ job_Status job = "pending"
       else response_code resp = StatusServiceUnavailable /\ sent = None) /\
  (forall gen cmp (wk : Worker) (job : Job) (w0 : World),
     job_Type job = "password_hash" -> job_Payload job = payload ->
     asString (mapIndex payload "password") = None ->
     exists w', processJob gen cmp wk job w0 = Done (set_Status "failed" job) w' /\
       w_log w' = w_log w0 ++
         [LogProcessing (wk_id wk) (job_ID job) "password_hash";
          LogFailed (wk_id wk) (job_ID job) "invalid password field"]).
Proof.
  intros r. split; [|split].
  - intros Habsent. unfold r.
    rewrite (HandleSubmitJob_validated ready _ payload w (or_introl eq_refl)).
    erewrite bind_run;
      [|rewrite validatePayload_password, Habsent; reflexivity].
    reflexivity.
  - intros v Hv Hsane. apply HandleSubmitJob_handoff; [now left| |exact Hsane].
    now rewrite validatePayload_password, Hv.
  - intros gen cmp wk job w0 Hty Hp Hpw. apply processJob_invalid_password; [exact Hty|].
    now rewrite Hp.
Qed.

Lemma exampleWorld_clock_sane (n : nat) (heap : list (list float)) :
  (n <= 1000)%nat -> clock_sane n (exampleWorld heap).
Proof.
  intros Hn k Hk. simpl. unfold GoInt.maxInt.
  change (2 ^ 63) with 9223372036854775808. lia.
Qed.

Lemma password_hash_admission_witness :
  let present := Some ({[ "password" := VFloat 12345 ]} : gmap string value) in
  let r := mkRequest "POST" (Decoded (mkSubmit "password_hash" present)) in
  let r0 := mkRequest "POST" (Decoded (mkSubmit "password_hash" None)) in
  let w := exampleWorld [] in
  mapIndex present "password" = Some (VFloat 12345) /\
  asString (mapIndex present "password") = None /\
  clock_sane 8 w /\
  HandleSubmitJob true r0 w =
    Done (HttpError StatusBadRequest "Missing 'password' field in payload", None) w /\
  (exists resp sent w', HandleSubmitJob true r w = Done (resp, sent) w' /\
     response_code resp = StatusAccepted /\
     exists job, sent = Some job /\ job_Type job = "password_hash" /\
                 job_Payload job = present /\ job_Status job = "pending") /\
  (exists w',
     processJob exampleGenerate exampleCompare (NewWorker 1 [])
                (mkJob "20231114221320-v05afk" "password_hash" present 0 "pending") w
       = Done (mkJob "20231114221320-v05afk" "password_hash" present 0 "failed") w').
Proof.
  intros present r r0 w.
  split; [reflexivity|]. split; [reflexivity|].
  split; [apply exampleWorld_clock_sane; lia|].
  split; [|split].
  - apply (password_hash_admission true None w). reflexivity.
  - destruct (password_hash_admission true present w) as (_ & Hpresent & _).
    apply (Hpresent (VFloat 12345)); [reflexivity|].
    apply exampleWorld_clock_sane; lia.
  - destruct (password_hash_admission true present w) as (_ & _ & Hworker).
    destruct (Hworker exampleGenerate exampleCompare (NewWorker 1 [])
                (mkJob "20231114221320-v05afk" "password_hash" present 0 "pending") w)
      as (w' & Hrun & _); [reflexivity | reflexivity | reflexivity |].
    exists w'. exact Hrun.
Defined.

(** C1 as stated fails: a [password] that is present but is a number, not a
    string, is admitted with 202 and the job is handed to the queue. *)
Lemma non_string_password_is_admitted :
  let payload := Some ({[ "password" := VFloat 12345 ]} : gmap string value) in
  let r := mkRequest "POST" (Decoded (mkSubmit "password_hash" payload)) in
  let answer := outcome_value (HandleSubmitJob true r (exampleWorld [])) in
  asString (mapIndex payload "password") = None /\
  option_map (fun a => response_code (fst a)) answer = Some StatusAccepted /\
  option_map (fun a => option_map job_ID (snd a)) answer
    = Some (Some "20231114221320-v05afk") /\
  option_map (fun a => option_map job_Payload (snd a)) answer = Some (Some payload).
Proof. repeat split; vm_compute; reflexivity. Qed.

(** The leniency of [report_generation]: the dataset is never longer than
    ten million, and one million where no float64 [data_points] is supplied. *)
Lemma effectiveDataPoints_capped (payload : gomap) :
  effectiveDataPoints payload <= 10000000.
Proof.
  unfold effectiveDataPoints.
  destruct (asFloat64 (mapIndex payload "data_points")) as [f|].
  - destruct (Z.ltb_spec 10000000 (Float64.to_int f)); lia.
  - simpl. lia.
Qed.

Lemma effectiveDataPoints_default (payload : gomap) :
  asFloat64 (mapIndex payload "data_points") = None ->
  effectiveDataPoints payload = 1000000.
Proof. intros H. unfold effectiveDataPoints. now rewrite H. Qed.

(** With a payload object that lacks [data_points], admission stores the
    default (as an [int], which the worker's float64 assertion passes over)
    and the worker uses one million all the same. *)
Lemma report_generation_default (g : gmap string value) (w : World) :
  g !! "data_points" = None ->
  validatePayload "report_generation" (Some g) w =
    Done (inr (Some (<["data_points" := VInt 1000000]> g))) w /\
  effectiveDataPoints (Some (<["data_points" := VInt 1000000]> g)) = 1000000 /\
  effectiveDataPoints (Some g) = 1000000.
Proof.
  intros Hg. split; [|split].
  - unfold validatePayload.
    change ("report_generation" =? "password_hash")%string with false.
    change ("report_generation" =? "report_generation")%string with true.
    cbv iota. unfold mapIndex. rewrite Hg. reflexivity.
  - apply effectiveDataPoints_default. unfold mapIndex.
    now rewrite lookup_insert_eq.
  - apply effectiveDataPoints_default. unfold mapIndex. now rewrite Hg.
Qed.

(** Admission looks for the [data_points] key and never at its value: any
    value, a zero or a negative number too, goes through to the queue. *)
Lemma report_generation_value_unchecked
    (ready : bool) (g : gmap string value) (v : value) (w : World) :
  g !! "data_points" = Some v -> clock_sane 8 w ->
  exists resp sent w',
    HandleSubmitJob ready (mkRequest "POST" (Decoded (mkSubmit "report_generation" (Some g)))) w
      = Done (resp, sent) w' /\
    if ready
    then response_code resp = StatusAccepted /\
         exists job, sent = Some job /\ job_Type job = "report_generation" /\
                     job_Payload job = Some g /\ job_Status job = "pending"
    else response_code resp = StatusServiceUnavailable /\ sent = None.
Proof.
  intros Hv Hsane. apply HandleSubmitJob_handoff; [now right| |exact Hsane].
  unfold validatePayload.
  change ("report_generation" =? "password_hash")%string with false.
  change ("report_generation" =? "report_generation")%string with true.
  cbv iota. unfold mapIndex. now rewrite Hv.
Qed.

(** C4 fails on a submission without a payload object:
    [{"type":"report_generation"}] leaves [req.Payload] nil, the lookup finds
    no [data_points], and storing the default into the nil map panics: no job
    is built and the handler writes no response.  The rest of C4 holds:
    with a payload object that lacks the key, the default is stored and the
    worker generates one million values (as it would for a nil payload, were
    one to reach it), and no payload makes it generate more than ten million. *)
Theorem report_generation_nil_payload_panics :
  (forall (ready : bool) (w : World),
      HandleSubmitJob ready
        (mkRequest "POST" (Decoded (mkSubmit "report_generation" None))) w
        = Panicked "assignment to entry in nil map" w) /\
  (forall (g : gmap string value) (w : World),
      let absent := delete "data_points" g in
      validatePayload "report_generation" (Some absent) w =
        Done (inr (Some (<["data_points" := VInt 1000000]> absent))) w /\
      effectiveDataPoints (Some (<["data_points" := VInt 1000000]> absent)) = 1000000) /\
  effectiveDataPoints None = 1000000 /\
  (forall payload : gomap, effectiveDataPoints payload <= 10000000).
Proof.
  split; [|split; [|split]].
  - intros ready w.
    rewrite (HandleSubmitJob_validated ready _ None w (or_intror eq_refl)).
    apply bind_panicked. reflexivity.
  - intros g w absent.
    destruct (report_generation_default absent w) as (Hstored & Hused & _);
      [apply lookup_delete_eq|].
    split; assumption.
  - apply effectiveDataPoints_default. reflexivity.
  - apply effectiveDataPoints_capped.
Qed.

(** ** Job identifiers *)

(** C9 fails: the suffix is a function of the clock readings modulo 36.  On
    a clock that advances 36ns per reading, 1000 jobs built one after the
    other within 288 microseconds of one second all get the same identifier;
    on a clock that advances 40ns per reading the first and the tenth job,
    2.9 microseconds apart, do. *)
Theorem job_ids_collide :
  let built36 :=
    outcome_value (newJobs 1000 "password_hash" None
                           (steadyWorld 1700000000123456789 36 [])) in
  let built40 :=
    outcome_value (newJobs 10 "password_hash" None
                           (steadyWorld 1700000000123456789 40 [])) in
  option_map (map job_ID) built36 = Some (replicate 1000 "20231114221320-rstuvw") /\
  option_map (forallb (fun j => job_CreatedAt j / 1000000000 =? 1700000000)) built36
    = Some true /\
  option_map (fun jobs => (job_ID <$> jobs !! 0%nat, job_ID <$> jobs !! 9%nat)) built40
    = Some (Some "20231114221320-v05afk", Some "20231114221320-v05afk") /\
  option_map (forallb (fun j => job_CreatedAt j / 1000000000 =? 1700000000)) built40
    = Some true.
Proof.
  split; [vm_compute; reflexivity|]. split; [vm_compute; reflexivity|].
  split; vm_compute; reflexivity.
Qed.

(** ** The worker loop *)

Lemma logf_run (e : LogEvent) (w : World) :
  logf e w = Done tt (mkWorld (w_clock w) (w_ticks w) (w_entropy w) (w_draws w)
                              (w_heap w) (w_log w ++ [e])).
Proof. reflexivity. Qed.

Lemma logFields_run (fields : list (string * value)) :
  forall w : World,
    exists w', foldr (fun kv rest => logf (LogResultField kv.1 kv.2) ;; rest) (ret tt) fields w
                 = Done tt w' /\
      w_log w' = w_log w ++ map (fun kv => LogResultField kv.1 kv.2) fields.
Proof.
  induction fields as [|kv fields IH]; intros w.
  - exists w. split; [reflexivity|]. simpl. now rewrite app_nil_r.
  - cbn [foldr]. rewrite (bind_run _ _ _ _ _ (logf_run _ w)).
    destruct (IH (mkWorld (w_clock w) (w_ticks w) (w_entropy w) (w_draws w)
                          (w_heap w) (w_log w ++ [LogResultField kv.1 kv.2])))
      as (w' & Hrun & Hlog).
    exists w'. split; [exact Hrun|]. rewrite Hlog. simpl. now rewrite <- app_assoc.
Qed.

Lemma logResult_run (jobID : string) (result : gmap string value) (w : World) :
  exists w', logResult jobID result w = Done tt w' /\
    w_log w' = w_log w ++ LogResults jobID ::
                 map (fun kv => LogResultField kv.1 kv.2) (map_to_list result).
Proof.
  unfold logResult. rewrite (bind_run _ _ _ _ _ (logf_run _ w)).
  destruct (logFields_run (map_to_list result)
              (mkWorld (w_clock w) (w_ticks w) (w_entropy w) (w_draws w)
                       (w_heap w) (w_log w ++ [LogResults jobID])))
    as (w' & Hrun & Hlog).
  exists w'. split; [exact Hrun|]. rewrite Hlog. simpl. now rewrite <- app_assoc.
Qed.

(** An empty dataset: the statistics carry the marker, and the executor
    reports no error. *)
Lemma processReportGeneration_empty (job : Job) (w : World) :
  effectiveDataPoints (job_Payload job) = 0 ->
  exists w', processReportGeneration job w
               = Done (inl {[ "error" := VString "empty dataset" ]}) w' /\
    w_log w' = w_log w ++ [LogGenerating 0; LogComputing 0].
Proof.
  intros Hzero. unfold processReportGeneration. rewrite Hzero.
  rewrite (bind_run _ _ _ _ _ (logf_run _ w)).
  rewrite (bind_run _ _ _ _ _ (make_run _ 0 ltac:(rewrite maxLen_value; lia))).
  change (fillDataset (Z.to_nat 0) _ 0) with (ret tt : Go unit).
  erewrite (bind_run (ret tt)) by reflexivity.
  rewrite (bind_run _ _ _ _ _ (logf_run _ _)).
  erewrite (bind_run (computeStatistics _)); cycle 1.
  { apply computeStatistics_empty. simpl. apply list_lookup_middle. reflexivity. }
  eexists. split; [reflexivity|]. simpl. now rewrite <- app_assoc.
Qed.

(** A negative length: [make] panics, and nothing in the worker recovers. *)
Lemma processReportGeneration_negative (job : Job) (w : World) :
  effectiveDataPoints (job_Payload job) < 0 ->
  exists w', processReportGeneration job w
               = Panicked "runtime error: makeslice: len out of range" w' /\
    w_log w' = w_log w ++ [LogGenerating (effectiveDataPoints (job_Payload job))].
Proof.
  intros Hneg. unfold processReportGeneration.
  rewrite (bind_run _ _ _ _ _ (logf_run _ w)).
  erewrite bind_panicked; [|apply make_panics; now left].
  eexists. split; reflexivity.
Qed.

Section WorkerLoop.

Variable gen : nat -> string -> Z -> string + string.
Variable cmp : string -> string -> option string.

Lemma processJob_result (wk : Worker) (job : Job) (w w' : World)
      (result : gmap string value) :
  execute gen cmp (set_Status "processing" job)
          (outcome_world (logf (LogProcessing (wk_id wk) (job_ID job) (job_Type job))
                               (tick 1 w)))
    = Done (inl result) w' ->
  exists w'', processJob gen cmp wk job w = Done (set_Status "completed" job) w'' /\
    w_log w'' = w_log w' ++ LogCompleted (wk_id wk) (job_ID job) :: LogResults (job_ID job) ::
                  map (fun kv => LogResultField kv.1 kv.2) (map_to_list result).
Proof.
  intros Hexec. unfold processJob.
  rewrite (bind_run _ _ _ _ _ (now_run w)).
  erewrite (bind_run (logf _)) by reflexivity.
  simpl in Hexec. rewrite (bind_run _ _ _ _ _ Hexec).
  rewrite (bind_run _ _ _ _ _ (now_run w')).
  rewrite (bind_run _ _ _ _ _ (logf_run _ _)).
  edestruct (logResult_run (job_ID job) result) as (w'' & Hrun & Hlog).
  change (job_ID (set_Status "completed" (set_Status "processing" job)))
    with (job_ID job).
  rewrite (bind_run _ _ _ _ _ Hrun).
  exists w''. split; [reflexivity|]. rewrite Hlog. simpl. now rewrite <- app_assoc.
Qed.

Lemma processJob_panicked (wk : Worker) (job : Job) (w w' : World) (msg : string) :
  execute gen cmp (set_Status "processing" job)
          (outcome_world (logf (LogProcessing (wk_id wk) (job_ID job) (job_Type job))
                               (tick 1 w)))
    = Panicked msg w' ->
  processJob gen cmp wk job w = Panicked msg w'.
Proof.
  intros Hexec. unfold processJob.
  rewrite (bind_run _ _ _ _ _ (now_run w)).
  erewrite (bind_run (logf _)) by reflexivity.
  simpl in Hexec. now rewrite (bind_panicked _ _ _ _ _ Hexec).
Qed.

(** After a job that fails, the loop goes on with the rest of the queue. *)
Lemma drain_after_error (wk : Worker) (job : Job) (rest : list Job)
      (w w' : World) :
  processJob gen cmp wk job w = Done (set_Status "failed" job) w' ->
  drain gen cmp wk (job :: rest) w =
    (let* others := drain gen cmp wk rest in ret (set_Status "failed" job :: others)) w'.
Proof. intros Hrun. cbn [drain]. now rewrite (bind_run _ _ _ _ _ Hrun). Qed.

End WorkerLoop.

(** C3 fails: a [report_generation] job asked for zero data points builds an
    empty dataset; [computeStatistics] marks its result with
    ["error": "empty dataset"], [processReportGeneration] hands that map back
    with a nil error, and the worker records the job as completed. *)
Theorem empty_dataset_job_is_completed
    (gen : nat -> string -> Z -> string + string)
    (cmp : string -> string -> option string)
    (wk : Worker) (w : World) (id : string) (createdAt : Z) :
  let job := mkJob id "report_generation"
                   (Some {[ "data_points" := VFloat 0 ]}) createdAt "pending" in
  exists w', processJob gen cmp wk job w = Done (set_Status "completed" job) w' /\
    job_Status (set_Status "completed" job) = "completed" /\
    w_log w' = w_log w ++
      [ LogProcessing (wk_id wk) id "report_generation";
        LogGenerating 0; LogComputing 0;
        LogCompleted (wk_id wk) id; LogResults id;
        LogResultField "error" (VString "empty dataset") ].
Proof.
  intros job.
  destruct (processReportGeneration_empty (set_Status "processing" job)
              (outcome_world (logf (LogProcessing (wk_id wk) id "report_generation")
                                   (tick 1 w))))
    as (w1 & Hexec & Hlog1); [reflexivity|].
  destruct (processJob_result gen cmp wk job w w1 _ Hexec) as (w2 & Hrun & Hlog2).
  exists w2. split; [exact Hrun|]. split; [reflexivity|].
  rewrite Hlog2, Hlog1, map_to_list_singleton. simpl.
  now rewrite <- !app_assoc.
Qed.

(** C2 fails: a [report_generation] job whose [data_points] is -1 makes
    [make([]float64, dataPoints)] panic inside the worker's goroutine.  There
    is no [recover]: [Start] never returns, the job is left in status
    processing, and the jobs queued behind it are never looked at. *)
Theorem negative_data_points_crash_worker
    (gen : nat -> string -> Z -> string + string)
    (cmp : string -> string -> option string)
    (wid : Z) (w : World) (id : string) (createdAt : Z) (rest : list Job) :
  let job := mkJob id "report_generation"
                   (Some {[ "data_points" := VFloat (-1) ]}) createdAt "pending" in
  exists w', Start gen cmp (NewWorker wid (job :: rest)) w
               = Panicked "runtime error: makeslice: len out of range" w' /\
    w_log w' = w_log w ++
      [ LogWorkerStarted wid;
        LogProcessing wid id "report_generation";
        LogGenerating (-1) ].
Proof.
  intros job. unfold Start.
  rewrite (bind_run _ _ _ _ _ (logf_run _ w)).
  set (w0 := mkWorld _ _ _ _ _ _).
  destruct (processReportGeneration_negative (set_Status "processing" job)
              (outcome_world (logf (LogProcessing wid id "report_generation")
                                   (tick 1 w0))))
    as (w1 & Hexec & Hlog1); [reflexivity|].
  pose proof (processJob_panicked gen cmp (NewWorker wid (job :: rest)) job w0 w1 _ Hexec)
    as Hjob.
  exists w1. split.
  - apply bind_panicked. cbn [wk_jobQueue NewWorker drain].
    apply bind_panicked. exact Hjob.
  - rewrite Hlog1. simpl. now rewrite <- !app_assoc.
Qed.

(** What the loop does keep to: an unknown job type fails the job and the
    rest of the queue is still drained. *)
Lemma unknown_type_does_not_stop_worker
    (gen : nat -> string -> Z -> string + string)
    (cmp : string -> string -> option string)
    (wk : Worker) (job : Job) (rest : list Job) (w : World) :
  job_Type job <> "password_hash" -> job_Type job <> "report_generation" ->
  exists w', drain gen cmp wk (job :: rest) w =
    (let* others := drain gen cmp wk rest in ret (set_Status "failed" job :: others)) w'.
Proof.
  intros H1 H2.
  destruct (processJob_unknown_type gen cmp wk job w H1 H2) as (w' & Hrun & _).
  exists w'. apply drain_after_error. exact Hrun.
Qed.

(** ** Password hashing *)

Lemma effectiveCost_without_cost (g : gmap string value) :
  effectiveCost (Some (delete "cost" g)) = DefaultCost.
Proof. unfold effectiveCost, mapIndex. now rewrite lookup_delete_eq. Qed.

Section PasswordHash.

Variable gen : nat -> string -> Z -> string + string.
Variable cmp : string -> string -> option string.

(** A hash that bcrypt returns is not empty (it is 60 bytes long). *)
Hypothesis gen_nonempty :
  forall (seed : nat) (password : string) (cost : Z) (hashed : string),
    gen seed password cost = inl hashed -> hashed <> EmptyString.

Lemma processPasswordHash_success (job : Job) (w w' : World)
      (result : gmap string value) :
  processPasswordHash gen cmp job w = Done (inl result) w' ->
  result !! "verified" = Some (VBool true) /\
  result !! "cost" = Some (VInt (effectiveCost (job_Payload job))) /\
  exists n, result !! "hash_length" = Some (VInt n) /\ 0 < n.
Proof using gen_nonempty.
  unfold processPasswordHash.
  destruct (asString (mapIndex (job_Payload job) "password")) as [password|];
    [|discriminate].
  rewrite (bind_run _ _ _ _ _ (logf_run _ w)).
  unfold bind, bcryptGenerate. cbn [w_draws].
  destruct (gen (w_draws w) password (effectiveCost (job_Payload job)))
    as [hashed|err] eqn:Hgen; [|discriminate].
  destruct (cmp hashed password); [discriminate|].
  unfold ret. intros [= <- _].
  split; [reflexivity|]. split; [reflexivity|].
  exists (Z.of_nat (String.length hashed)). split; [reflexivity|].
  destruct hashed; [now apply gen_nonempty in Hgen | simpl; lia].
Qed.

(** C7, as the code has it.  For a job with a string password: a numeric
    cost which, cut to an integer, lies outside [[4, 31]] is not rejected;
    the job is hashed with the default cost 10, exactly as if no cost had
    been given.  Whenever hashing succeeds the result says
    [verified = true], reports the cost used, and a [hash_length] above 0. *)
Theorem password_hash_cost_and_result
    (id ty : string) (g : gmap string value) (createdAt : Z) (status : string)
    (password : string) (w : World) :
  let job := mkJob id ty (Some g) createdAt status in
  g !! "password" = Some (VString password) ->
  (forall costVal : float,
      g !! "cost" = Some (VFloat costVal) ->
      Float64.to_int costVal < 4 \/ 31 < Float64.to_int costVal ->
      effectiveCost (Some g) = DefaultCost /\
      processPasswordHash gen cmp job w =
        processPasswordHash gen cmp
          (mkJob id ty (Some (delete "cost" g)) createdAt status) w) /\
  (forall (result : gmap string value) (w' : World),
      processPasswordHash gen cmp job w = Done (inl result) w' ->
      result !! "verified" = Some (VBool true) /\
      result !! "cost" = Some (VInt (effectiveCost (Some g))) /\
      exists n, result !! "hash_length" = Some (VInt n) /\ 0 < n).
Proof using gen_nonempty.
  intros job Hpw. split.
  - intros costVal Hcost Hout.
    assert (Hdefault : effectiveCost (Some g) = DefaultCost).
    { unfold effectiveCost, mapIndex. rewrite Hcost. cbn [asFloat64].
      destruct Hout as [Hlow|Hhigh].
      - destruct (Z.ltb_spec (Float64.to_int costVal) 4); [reflexivity|lia].
      - destruct (Z.ltb_spec 31 (Float64.to_int costVal)); [|lia].
        now rewrite orb_true_r. }
    split; [exact Hdefault|].
    unfold processPasswordHash, job. cbn [job_Payload].
    rewrite Hdefault, effectiveCost_without_cost.
    unfold mapIndex. rewrite lookup_delete_ne by discriminate. reflexivity.
  - intros result w' Hrun. apply (processPasswordHash_success job w w' result Hrun).
Qed.

End PasswordHash.

Lemma exampleGenerate_nonempty (seed : nat) (password : string) (cost : Z) (hashed : string) :
  exampleGenerate seed password cost = inl hashed -> hashed <> EmptyString.
Proof.
  unfold exampleGenerate. destruct (72 <? String.length password)%nat; [discriminate|].
  intros [= <-]. discriminate.
Qed.

Lemma password_hash_cost_and_result_witness :
  let g : gmap string value := {[ "password" := VString "abc123"; "cost" := VFloat 40 ]} in
  let job := mkJob "20231114221320-v05afk" "password_hash" (Some g) 0 "processing" in
  let w := exampleWorld [] in
  g !! "password" = Some (VString "abc123") /\
  g !! "cost" = Some (VFloat 40) /\
  31 < Float64.to_int 40 /\
  effectiveCost (Some g) = DefaultCost /\
  (forall (result : gmap string value) (w' : World),
      processPasswordHash exampleGenerate exampleCompare job w = Done (inl result) w' ->
      result !! "verified" = Some (VBool true) /\
      result !! "cost" = Some (VInt (effectiveCost (Some g))) /\
      exists n, result !! "hash_length" = Some (VInt n) /\ 0 < n) /\
  option_map (fun r => match r with inl m => m !! "hash_length" | inr _ => None end)
    (outcome_value (processPasswordHash exampleGenerate exampleCompare job w))
    = Some (Some (VInt 60)).
Proof.
  intros g job w.
  pose proof (password_hash_cost_and_result exampleGenerate exampleCompare
                exampleGenerate_nonempty "20231114221320-v05afk" "password_hash" g 0
                "processing" "abc123" w ltac:(reflexivity)) as (Hcost & Hresult).
  split; [reflexivity|]. split; [reflexivity|]. split; [vm_compute; reflexivity|].
  split; [|split].
  - apply (proj1 (Hcost 40%float eq_refl (or_intror eq_refl))).
  - exact Hresult.
  - vm_compute. reflexivity.
Defined.

(** C7 as stated fails for a cost strictly between 31 and 32: 31.5 lies
    outside [[4, 31]], yet [int(31.5)] is 31 and the job is hashed with cost
    31, not with the default. *)
Lemma fractional_cost_above_31_is_kept :
  let g : gmap string value := {[ "password" := VString "abc123"; "cost" := VFloat 31.5 ]} in
  let job := mkJob "20231114221320-v05afk" "password_hash" (Some g) 0 "processing" in
  let run := processPasswordHash exampleGenerate exampleCompare job (exampleWorld []) in
  (31 <? 31.5)%float = true /\
  effectiveCost (Some g) = 31 /\
  effectiveCost (Some g) <> DefaultCost /\
  w_log (outcome_world run) = [LogHashing 31] /\
  option_map (fun r => match r with inl m => m !! "cost" | inr _ => None end)
    (outcome_value run) = Some (Some (VInt 31)).
Proof.
  split; [reflexivity|]. split; [vm_compute; reflexivity|].
  split; [vm_compute; discriminate|].
  split; vm_compute; reflexivity.
Qed.

(** ** The running minimum and maximum *)

(** The running minimum and maximum of [computeStatistics]. *)
Lemma fold_statsMin (xs : list float) :
  forall d : float,
    let m := fold_left statsMin xs d in
    (m = d \/ (m ∈ xs /\ (m <? d)%float = true)) /\
    forall x, x ∈ xs -> (x <? m)%float = false.
Proof.
  induction xs as [|v xs IH]; intros d; simpl.
  - split; [now left|]. intros x Hx. inversion Hx.
  - destruct (IH (statsMin d v)) as (Hmem & Hall).
    set (m := fold_left statsMin xs (statsMin d v)) in *.
    unfold statsMin in Hmem. split.
    + destruct (v <? d)%float eqn:Hvd; destruct Hmem as [Heq|[Hin Hlt]].
      * right. rewrite Heq. split; [apply list_elem_of_here | exact Hvd].
      * right. split; [now apply list_elem_of_further|]. exact (ltb_trans _ _ _ Hlt Hvd).
      * now left.
      * right. split; [now apply list_elem_of_further | exact Hlt].
    + intros x Hx. apply elem_of_cons in Hx as [->|Hx]; [|now apply Hall].
      destruct (v <? m)%float eqn:Hvm; [exfalso|reflexivity].
      destruct (v <? d)%float eqn:Hvd; destruct Hmem as [Heq|[Hin Hlt]].
      * rewrite Heq, ltb_irrefl in Hvm. discriminate.
      * pose proof (ltb_trans _ _ _ Hvm Hlt) as H. rewrite ltb_irrefl in H. discriminate.
      * rewrite Heq in Hvm. congruence.
      * pose proof (ltb_trans _ _ _ Hvm Hlt) as H. congruence.
Qed.

Lemma fold_statsMax (xs : list float) :
  forall d : float,
    let m := fold_left statsMax xs d in
    (m = d \/ (m ∈ xs /\ (d <? m)%float = true)) /\
    forall x, x ∈ xs -> (m <? x)%float = false.
Proof.
  induction xs as [|v xs IH]; intros d; simpl.
  - split; [now left|]. intros x Hx. inversion Hx.
  - destruct (IH (statsMax d v)) as (Hmem & Hall).
    set (m := fold_left statsMax xs (statsMax d v)) in *.
    unfold statsMax in Hmem. split.
    + destruct (d <? v)%float eqn:Hvd; destruct Hmem as [Heq|[Hin Hlt]].
      * right. rewrite Heq. split; [apply list_elem_of_here | exact Hvd].
      * right. split; [now apply list_elem_of_further|]. exact (ltb_trans _ _ _ Hvd Hlt).
      * now left.
      * right. split; [now apply list_elem_of_further | exact Hlt].
    + intros x Hx. apply elem_of_cons in Hx as [->|Hx]; [|now apply Hall].
      destruct (m <? v)%float eqn:Hvm; [exfalso|reflexivity].
      destruct (d <? v)%float eqn:Hvd; destruct Hmem as [Heq|[Hin Hlt]].
      * rewrite Heq, ltb_irrefl in Hvm. discriminate.
      * pose proof (ltb_trans _ _ _ Hlt Hvm) as H. rewrite ltb_irrefl in H. discriminate.
      * rewrite Heq in Hvm. congruence.
      * pose proof (ltb_trans _ _ _ Hlt Hvm) as H. congruence.
Qed.

(** ** What the statistics say about the data *)

Lemma stats_dom (c s me sd va mi ma md q25 q75 q95 q99 ra : value) :
  dom (list_to_map
         [ ("count", c); ("sum", s); ("mean", me); ("std_dev", sd); ("variance", va);
           ("min", mi); ("max", ma); ("median", md); ("p25", q25); ("p75", q75);
           ("p95", q95); ("p99", q99); ("range", ra) ] : gmap string value)
    = statsKeys.
Proof. vm_compute. reflexivity. Qed.

Lemma statisticsOf_summary (xs : list float) :
  dom (statisticsOf xs) = statsKeys /\
  statisticsOf xs !! "error" = None /\
  statisticsOf xs !! "count" = Some (VInt (Z.of_nat (length xs))) /\
  statisticsOf xs !! "min" = Some (VFloat (fold_left statsMin xs (rank xs 0))) /\
  statisticsOf xs !! "max" = Some (VFloat (fold_left statsMax xs (rank xs 0))) /\
  statisticsOf xs !! "range" =
    Some (VFloat (fold_left statsMax xs (rank xs 0) - fold_left statsMin xs (rank xs 0))%float).
Proof.
  unfold statisticsOf. cbv zeta.
  lazymatch goal with
  | |- dom (list_to_map [(_, ?c); (_, ?s); (_, ?me); (_, ?sd); (_, ?va); (_, ?mi);
                         (_, ?ma); (_, ?md); (_, ?a); (_, ?b); (_, ?e); (_, ?f);
                         (_, ?ra)]) = _ /\ _ =>
      pose proof (stats_entries c s me sd va mi ma md a b e f ra) as Hent;
      pose proof (stats_dom c s me sd va mi ma md a b e f ra) as Hdom
  end.
  cbv zeta in Hent. intuition.
Qed.

Lemma head_rank (x : float) (xs : list float) : rank (x :: xs) 0 = x.
Proof. reflexivity. Qed.

(** The smallest and the largest element, as the two loops find them. *)
Lemma statsMin_least (x0 : float) (xs : list float) :
  let m := fold_left statsMin (x0 :: xs) (rank (x0 :: xs) 0) in
  m ∈ x0 :: xs /\ forall x, x ∈ x0 :: xs -> (x <? m)%float = false.
Proof.
  rewrite head_rank. intros m.
  destruct (fold_statsMin (x0 :: xs) x0) as (Hmem & Hall). fold m in Hmem, Hall.
  split; [|exact Hall].
  destruct Hmem as [->|[Hin _]]; [apply list_elem_of_here | exact Hin].
Qed.

Lemma statsMax_greatest (x0 : float) (xs : list float) :
  let m := fold_left statsMax (x0 :: xs) (rank (x0 :: xs) 0) in
  m ∈ x0 :: xs /\ forall x, x ∈ x0 :: xs -> (m <? x)%float = false.
Proof.
  rewrite head_rank. intros m.
  destruct (fold_statsMax (x0 :: xs) x0) as (Hmem & Hall). fold m in Hmem, Hall.
  split; [|exact Hall].
  destruct Hmem as [->|[Hin _]]; [apply list_elem_of_here | exact Hin].
Qed.

(** X1.  The result of a non-empty slice has the thirteen measures and no
    error marker, counts the elements, and reports as [min] and [max] two
    elements of the data that no element lies below, respectively above, with
    [range] their difference. *)
Theorem computeStatistics_min_max (w : World) (d : Slice.t) (xs : list float) :
  w_heap w !! d = Some xs -> xs <> [] -> Z.of_nat (length xs) <= Slice.maxLen ->
  exists (m : gmap string value) (lo hi : float),
    outcome_value (computeStatistics d w) = Some m /\
    dom m = statsKeys /\ m !! "error" = None /\
    m !! "count" = Some (VInt (Z.of_nat (length xs))) /\
    m !! "min" = Some (VFloat lo) /\ m !! "max" = Some (VFloat hi) /\
    m !! "range" = Some (VFloat (hi - lo)%float) /\
    lo ∈ xs /\ hi ∈ xs /\
    forall x, x ∈ xs -> (x <? lo)%float = false /\ (hi <? x)%float = false.
Proof.
  intros Hd Hne Hmax.
  destruct (statisticsOf_summary xs) as (Hdom & Herr & Hcount & Hmin & Hmx & Hrange).
  exists (statisticsOf xs), (fold_left statsMin xs (rank xs 0)),
         (fold_left statsMax xs (rank xs 0)).
  rewrite (computeStatistics_run w d xs Hd Hne Hmax).
  do 7 (split; [first [reflexivity | assumption]|]).
  destruct xs as [|x0 xs']; [congruence|].
  destruct (statsMin_least x0 xs') as (Hlo & Hleast).
  destruct (statsMax_greatest x0 xs') as (Hhi & Hgreatest).
  split; [exact Hlo|]. split; [exact Hhi|].
  intros x Hx. split; [now apply Hleast | now apply Hgreatest].
Qed.

Lemma computeStatistics_min_max_witness :
  let w := exampleWorld [[3; 1; 2]%float] in
  w_heap w !! 0%nat = Some [3; 1; 2]%float /\
  exists (m : gmap string value) (lo hi : float),
    outcome_value (computeStatistics 0%nat w) = Some m /\
    dom m = statsKeys /\ m !! "error" = None /\
    m !! "count" = Some (VInt 3) /\
    m !! "min" = Some (VFloat lo) /\ m !! "max" = Some (VFloat hi) /\
    m !! "range" = Some (VFloat (hi - lo)%float) /\
    lo ∈ [3; 1; 2]%float /\ hi ∈ [3; 1; 2]%float /\
    forall x, x ∈ [3; 1; 2]%float -> (x <? lo)%float = false /\ (hi <? x)%float = false.
Proof.
  split; [reflexivity|].
  apply (computeStatistics_min_max (exampleWorld [[3; 1; 2]%float]) 0%nat [3; 1; 2]%float);
    [reflexivity | discriminate | vm_compute; discriminate].
Defined.

(** X2.  Every percentile is an element of the data, and they come in order:
    p25, the median (for an odd length), p75, p95, p99. *)
Theorem computeStatistics_percentiles_ordered
    (w : World) (d : Slice.t) (xs : list float) :
  w_heap w !! d = Some xs -> xs <> [] -> Z.of_nat (length xs) <= Slice.maxLen ->
  exists (m : gmap string value) (q25 q75 q95 q99 : float),
    outcome_value (computeStatistics d w) = Some m /\
    m !! "p25" = Some (VFloat q25) /\ m !! "p75" = Some (VFloat q75) /\
    m !! "p95" = Some (VFloat q95) /\ m !! "p99" = Some (VFloat q99) /\
    q25 ∈ xs /\ q75 ∈ xs /\ q95 ∈ xs /\ q99 ∈ xs /\
    inOrder q25 q75 /\ inOrder q75 q95 /\ inOrder q95 q99 /\
    (Z.of_nat (length xs) mod 2 <> 0 ->
       exists med, m !! "median" = Some (VFloat med) /\ med ∈ xs /\
                   inOrder q25 med /\ inOrder med q75).
Proof.
  intros Hd Hne Hmax.
  set (n := Z.of_nat (length xs)).
  set (sorted := Float64.sort xs).
  assert (Hn : 1 <= n) by (destruct xs; [congruence|]; unfold n; simpl; lia).
  assert (Hlen : Z.of_nat (length sorted) = n)
    by (unfold sorted; rewrite sort_length; reflexivity).
  assert (Hrank : forall k c, 0 <= k < c -> 0 <= k * n / c < Z.of_nat (length sorted))
    by (intros k c; rewrite Hlen; apply rank_in_bounds; exact Hn).
  assert (Hin : forall i, 0 <= i < Z.of_nat (length sorted) -> rank sorted i ∈ xs).
  { intros i Hi. rewrite <- (sort_perm xs). fold sorted.
    eapply list_elem_of_lookup_2. apply rank_lookup. exact Hi. }
  assert (Hord : forall i j, 0 <= i <= j -> j < Z.of_nat (length sorted) ->
                   inOrder (rank sorted i) (rank sorted j)).
  { intros i j Hij Hj.
    apply (StronglySorted_lookup_le sorted (sort_strongly_sorted xs)
             (Z.to_nat i) (Z.to_nat j)); [lia | apply rank_lookup; lia | apply rank_lookup; lia]. }
  destruct (statisticsOf_ranks xs) as (Hmed & H25 & H75 & H95 & H99).
  fold n sorted in Hmed, H25, H75, H95, H99.
  rewrite (quot_n n Hn Hmax 4) in H25 by lia.
  rewrite (quot_const n Hn Hmax) in H75, H95, H99 by lia.
  rewrite (quot_n n Hn Hmax 2), (rem_mod n Hn 2) in Hmed by lia.
  pose proof (Hrank 1 4 ltac:(lia)) as B25. rewrite Z.mul_1_l in B25.
  pose proof (Hrank 1 2 ltac:(lia)) as B50. rewrite Z.mul_1_l in B50.
  pose proof (Hrank 3 4 ltac:(lia)) as B75.
  pose proof (Hrank 95 100 ltac:(lia)) as B95.
  pose proof (Hrank 99 100 ltac:(lia)) as B99.
  assert (L1 : n / 4 <= n / 2) by (apply Z.div_le_compat_l; lia).
  assert (L2 : n / 2 <= 3 * n / 4).
  { rewrite <- (Z.div_mul_cancel_l n 2 2) by lia.
    change (2 * 2) with 4. apply Z.div_le_mono; lia. }
  assert (L3 : 3 * n / 4 <= 95 * n / 100).
  { rewrite <- (Z.div_mul_cancel_l (3 * n) 4 25) by lia.
    change (25 * 4) with 100. apply Z.div_le_mono; lia. }
  assert (L4 : 95 * n / 100 <= 99 * n / 100) by (apply Z.div_le_mono; lia).
  exists (statisticsOf xs), (rank sorted (n / 4)), (rank sorted (3 * n / 4)),
         (rank sorted (95 * n / 100)), (rank sorted (99 * n / 100)).
  rewrite (computeStatistics_run w d xs Hd Hne Hmax).
  split; [reflexivity|]. do 4 (split; [assumption|]).
  do 4 (split; [apply Hin; lia|]).
  do 3 (split; [apply Hord; lia|]).
  intros Hodd. destruct (Z.eqb_spec (n mod 2) 0) as [?|_]; [contradiction|].
  exists (rank sorted (n / 2)). split; [exact Hmed|].
  split; [apply Hin; lia|]. split; apply Hord; lia.
Qed.

Lemma computeStatistics_percentiles_ordered_witness :
  let w := exampleWorld [[3; 1; 2]%float] in
  w_heap w !! 0%nat = Some [3; 1; 2]%float /\
  exists (m : gmap string value) (q25 q75 q95 q99 : float),
    outcome_value (computeStatistics 0%nat w) = Some m /\
    m !! "p25" = Some (VFloat q25) /\ m !! "p75" = Some (VFloat q75) /\
    m !! "p95" = Some (VFloat q95) /\ m !! "p99" = Some (VFloat q99) /\
    q25 ∈ [3; 1; 2]%float /\ q75 ∈ [3; 1; 2]%float /\
    q95 ∈ [3; 1; 2]%float /\ q99 ∈ [3; 1; 2]%float /\
    inOrder q25 q75 /\ inOrder q75 q95 /\ inOrder q95 q99 /\
    (Z.of_nat (length [3; 1; 2]%float) mod 2 <> 0 ->
       exists med, m !! "median" = Some (VFloat med) /\ med ∈ [3; 1; 2]%float /\
                   inOrder q25 med /\ inOrder med q75).
Proof.
  split; [reflexivity|].
  apply (computeStatistics_percentiles_ordered (exampleWorld [[3; 1; 2]%float]) 0%nat
           [3; 1; 2]%float);
    [reflexivity | discriminate | vm_compute; discriminate].
Defined.

(** ** Report generation *)

Lemma assign_run (w : World) (s : Slice.t) (xs : list float) (i : Z) (x : float) :
  w_heap w !! s = Some xs -> 0 <= i < Z.of_nat (length xs) ->
  Slice.assign s i x w =
    Done tt (set_heap (<[s := <[Z.to_nat i := x]> xs]> (w_heap w)) w).
Proof.
  intros Hs Hi. unfold Slice.assign.
  rewrite (bind_run _ _ _ _ _ (contents_run w s xs Hs)).
  destruct (Z.ltb_spec i 0); [lia|].
  destruct (Z.leb_spec (Z.of_nat (length xs)) i); [lia|]. reflexivity.
Qed.

Lemma fillDataset_run (count : nat) (dataset : Slice.t) :
  forall (i : Z) (w : World) (cur : list float),
    w_heap w !! dataset = Some cur -> 0 <= i ->
    i + Z.of_nat count = Z.of_nat (length cur) ->
    exists (ys : list float) (w' : World),
      fillDataset count dataset i w = Done tt w' /\
      w_heap w' = <[dataset := take (Z.to_nat i) cur ++ ys]> (w_heap w) /\
      length ys = count /\ Forall (sampleOf w) ys /\
      w_draws w' = (count + w_draws w)%nat /\ w_log w' = w_log w /\
      w_entropy w' = w_entropy w /\ w_clock w' = w_clock w.
Proof.
  induction count as [|count IH]; intros i w cur Hcur Hi Hlen.
  - exists [], w. split; [reflexivity|]. split.
    + rewrite app_nil_r, firstn_all2 by lia. symmetry. now apply list_insert_id.
    + repeat split. constructor.
  - cbn [fillDataset].
    erewrite (bind_run randInt1000) by reflexivity.
    assert (Hdraw : exists (x : float) (w1 : World),
               (match w_entropy w (w_draws w) with
                | Some v => ret (Float64.of_int v)
                | None => let* t := now in ret (Float64.of_int (GoInt.rem t 1000))
                end)
                 (mkWorld (w_clock w) (w_ticks w) (w_entropy w) (S (w_draws w))
                          (w_heap w) (w_log w)) = Done x w1 /\
               sampleOf w x /\ w_heap w1 = w_heap w /\ w_draws w1 = S (w_draws w) /\
               w_log w1 = w_log w /\ w_entropy w1 = w_entropy w /\
               w_clock w1 = w_clock w).
    { destruct (w_entropy w (w_draws w)) as [v|] eqn:Hv.
      - eexists _, _. split; [reflexivity|]. split; [|repeat split].
        left. now exists (w_draws w), v.
      - eexists _, _. split; [reflexivity|]. split; [|repeat split].
        right. now exists (w_ticks w). }
    destruct Hdraw as (x & w1 & Hx & Hsample & Hheap1 & Hdraws1 & Hlog1 & Hent1 & Hclk1).
    rewrite (bind_run _ _ _ _ _ Hx).
    assert (Hcur1 : w_heap w1 !! dataset = Some cur) by now rewrite Hheap1.
    rewrite (bind_run _ _ _ _ _ (assign_run w1 dataset cur i x Hcur1 ltac:(lia))).
    set (cur' := <[Z.to_nat i := x]> cur).
    set (w2 := set_heap (<[dataset := cur']> (w_heap w1)) w1).
    assert (Hds : (dataset < length (w_heap w))%nat) by (eapply lookup_lt_Some; eassumption).
    assert (Hcur2 : w_heap w2 !! dataset = Some cur').
    { unfold w2. rewrite heap_set_heap, Hheap1. now apply list_lookup_insert_eq. }
    destruct (IH (i + 1) w2 cur' Hcur2 ltac:(lia)) as (ys & w' & Hrun & Hheap & Hys & Hall & Hdr & Hlg & Hen & Hck).
    { unfold cur'. rewrite length_insert. lia. }
    exists (x :: ys), w'. split; [exact Hrun|]. split; [|split; [|split]].
    + rewrite Hheap. unfold w2. rewrite heap_set_heap, Hheap1, list_insert_insert_eq.
      f_equal. replace (Z.to_nat (i + 1)) with (S (Z.to_nat i)) by lia.
      rewrite (take_S_r cur' (Z.to_nat i) x).
      * unfold cur'. rewrite take_insert_ge by lia. now rewrite <- app_assoc.
      * unfold cur'. apply list_lookup_insert_eq. lia.
    + simpl. now rewrite Hys.
    + constructor; [exact Hsample|].
      eapply Forall_impl; [exact Hall|]. intros y Hy.
      unfold sampleOf in *. unfold w2 in Hy. simpl in Hy. rewrite Hent1, Hclk1 in Hy. exact Hy.
    + unfold w2 in *. simpl in *. rewrite Hdr, Hlg, Hen, Hck, Hdraws1, Hlog1, Hent1, Hclk1.
      repeat split. lia.
Qed.

(** The run of [processReportGeneration] for a positive number of data
    points. *)
Lemma processReportGeneration_run (job : Job) (w : World) :
  1 <= effectiveDataPoints (job_Payload job) ->
  exists (xs : list float) (w' : World),
    processReportGeneration job w = Done (inl (statisticsOf xs)) w' /\
    Z.of_nat (length xs) = effectiveDataPoints (job_Payload job) /\
    Forall (sampleOf w) xs /\
    w_heap w' = w_heap w ++ [xs; Float64.sort xs] /\
    w_draws w' = (length xs + w_draws w)%nat /\
    w_log w' = w_log w ++ [LogGenerating (effectiveDataPoints (job_Payload job));
                           LogComputing (effectiveDataPoints (job_Payload job))].
Proof.
  intros Hn. set (n := effectiveDataPoints (job_Payload job)) in *.
  assert (Hcap : n <= 10000000) by apply effectiveDataPoints_capped.
  assert (Hmax : n <= Slice.maxLen) by (rewrite maxLen_value; lia).
  unfold processReportGeneration. fold n.
  rewrite (bind_run _ _ _ _ _ (logf_run _ w)).
  set (w1 := mkWorld _ _ _ _ _ _).
  rewrite (bind_run _ _ _ _ _ (make_run w1 n ltac:(lia))).
  set (w2 := set_heap _ w1).
  assert (Hcur : w_heap w2 !! length (w_heap w1) = Some (replicate (Z.to_nat n) 0%float)).
  { unfold w2. rewrite heap_set_heap. apply list_lookup_middle. reflexivity. }
  destruct (fillDataset_run (Z.to_nat n) (length (w_heap w1)) 0 w2 _ Hcur ltac:(lia))
    as (xs & w3 & Hfill & Hheap3 & Hlen & Hall & Hdr & Hlg & Hen & Hck).
  { rewrite length_replicate. lia. }
  rewrite (bind_run _ _ _ _ _ Hfill).
  rewrite (bind_run _ _ _ _ _ (logf_run _ w3)).
  set (w4 := mkWorld _ _ _ _ _ _).
  assert (Hheap4 : w_heap w4 = w_heap w ++ [xs]).
  { unfold w4. simpl. rewrite Hheap3. unfold w2. rewrite heap_set_heap. simpl.
    replace (length (w_heap w)) with (length (w_heap w) + 0)%nat at 1 by lia.
    rewrite insert_app_r. reflexivity. }
  assert (Hxs : w_heap w4 !! length (w_heap w1) = Some xs).
  { rewrite Hheap4. apply list_lookup_middle. reflexivity. }
  rewrite (bind_run _ _ _ _ _
             (computeStatistics_run w4 _ xs Hxs
                ltac:(destruct xs; [simpl in Hlen; lia | discriminate]) ltac:(lia))).
  eexists xs, _. split; [reflexivity|]. split; [lia|]. split; [|split; [|split]].
  - eapply Forall_impl; [exact Hall|]. intros y Hy. exact Hy.
  - rewrite heap_set_heap, Hheap4. now rewrite <- app_assoc.
  - simpl. rewrite Hdr. unfold w2, w1. simpl. lia.
  - simpl. rewrite Hlg. unfold w2, w1. simpl. now rewrite <- app_assoc.
Qed.

Lemma sampleOf_in_range (w : World) (y : float) :
  entropy_in_range w -> clock_after_epoch w -> sampleOf w y ->
  exists z : Z, 0 <= z < 1000 /\ y = Float64.of_int z.
Proof.
  intros Hent Hclk [(k & v & Hv & ->) | (j & ->)].
  - exists v. split; [now apply (Hent k)|reflexivity].
  - exists (GoInt.rem (w_clock w j) 1000). split; [|reflexivity].
    unfold GoInt.rem. apply Z.rem_bound_pos; [apply Hclk | lia].
Qed.

(** X4.  For a positive number of data points [n] (what the payload asks
    for, one million by default, ten million at most) the executor draws
    exactly [n] values and hands back the statistics of a dataset of [n]
    elements without an error; the dataset and its sorted copy are the two
    slices it allocates.  With the entropy source within its contract and the
    clock after 1970, every element is the float of an integer in
    [[0, 1000)]. *)
Theorem processReportGeneration_dataset (job : Job) (w : World) :
  let n := effectiveDataPoints (job_Payload job) in
  1 <= n ->
  exists (xs : list float) (w' : World),
    processReportGeneration job w = Done (inl (statisticsOf xs)) w' /\
    Z.of_nat (length xs) = n /\
    statisticsOf xs !! "count" = Some (VInt n) /\
    w_draws w' = (Z.to_nat n + w_draws w)%nat /\
    w_heap w' = w_heap w ++ [xs; Float64.sort xs] /\
    w_log w' = w_log w ++ [LogGenerating n; LogComputing n] /\
    (entropy_in_range w -> clock_after_epoch w ->
     Forall (fun x => exists z : Z, 0 <= z < 1000 /\ x = Float64.of_int z) xs).
Proof.
  intros n Hn.
  destruct (processReportGeneration_run job w Hn)
    as (xs & w' & Hrun & Hlen & Hall & Hheap & Hdraws & Hlog).
  exists xs, w'. fold n in Hlen, Hlog.
  split; [exact Hrun|]. split; [exact Hlen|]. split; [|split; [|split; [|split]]].
  - destruct (statisticsOf_summary xs) as (_ & _ & Hcount & _). now rewrite Hcount, Hlen.
  - rewrite Hdraws. lia.
  - exact Hheap.
  - exact Hlog.
  - intros Hent Hclk. eapply Forall_impl; [exact Hall|].
    intros y Hy. now apply (sampleOf_in_range w).
Qed.

Lemma exampleWorld_entropy_in_range (heap : list (list float)) :
  entropy_in_range (exampleWorld heap).
Proof. intros k v [= <-]. apply Z.mod_pos_bound. lia. Qed.

Lemma exampleWorld_clock_after_epoch (heap : list (list float)) :
  clock_after_epoch (exampleWorld heap).
Proof. intros k. simpl. lia. Qed.

Lemma processReportGeneration_dataset_witness :
  let job := mkJob "20231114221320-v05afk" "report_generation"
                   (Some {[ "data_points" := VFloat 3 ]}) 0 "processing" in
  let w := exampleWorld [] in
  1 <= effectiveDataPoints (job_Payload job) /\
  entropy_in_range w /\ clock_after_epoch w /\
  exists (xs : list float) (w' : World),
    processReportGeneration job w = Done (inl (statisticsOf xs)) w' /\
    Z.of_nat (length xs) = 3 /\
    statisticsOf xs !! "count" = Some (VInt 3) /\
    Forall (fun x => exists z : Z, 0 <= z < 1000 /\ x = Float64.of_int z) xs.
Proof.
  intros job w.
  assert (Hn : 1 <= effectiveDataPoints (job_Payload job)) by (vm_compute; discriminate).
  split; [exact Hn|].
  split; [apply exampleWorld_entropy_in_range|].
  split; [apply exampleWorld_clock_after_epoch|].
  destruct (processReportGeneration_dataset job w Hn)
    as (xs & w' & Hrun & Hlen & Hcount & _ & _ & _ & Hrange).
  exists xs, w'. split; [exact Hrun|]. split; [exact Hlen|]. split; [exact Hcount|].
  apply Hrange; [apply exampleWorld_entropy_in_range | apply exampleWorld_clock_after_epoch].
Defined.

(** ** The worker never stops on its own *)

Section WorkerTotal.

Variable gen : nat -> string -> Z -> string + string.
Variable cmp : string -> string -> option string.


Lemma processReportGeneration_total (job : Job) (w : World) :
  0 <= effectiveDataPoints (job_Payload job) ->
  exists (m : gmap string value) (w' : World),
    processReportGeneration job w = Done (inl m) w'.
Proof.
  intros Hn. destruct (Z.eq_dec (effectiveDataPoints (job_Payload job)) 0) as [Hz|Hnz].
  - destruct (processReportGeneration_empty job w Hz) as (w' & Hrun & _). eauto.
  - destruct (processReportGeneration_run job w ltac:(lia)) as (xs & w' & Hrun & _). eauto.
Qed.




End WorkerTotal.


(** ** What admission guarantees *)

Lemma NewJob_fields (jobType : string) (payload : gomap) (w w' : World) (job : Job) :
  NewJob jobType payload w = Done job w' ->
  job_Type job = jobType /\ job_Payload job = payload /\ job_Status job = "pending" /\
  w_log w' = w_log w.
Proof.
  unfold NewJob. unfold bind at 1.
  destruct (generateJobID w) as [id w1|msg w1] eqn:Hid; [|discriminate].
  rewrite (bind_run _ _ _ _ _ (now_run w1)). intros [= <- <-].
  repeat split. simpl.
  revert Hid. unfold generateJobID. rewrite (bind_run _ _ _ _ _ (now_run w)).
  unfold bind at 1. destruct (randString 6 (tick 1 w)) as [s w2|msg w2] eqn:Hs; [|discriminate].
  intros [= _ <-].
  assert (Hgen : forall count i wa s wb, randStringFrom count i wa = Done s wb ->
                                         w_log wb = w_log wa).
  { induction count as [|count IH]; intros i wa s' wb.
    - intros [= _ <-]. reflexivity.
    - cbn [randStringFrom]. rewrite (bind_run _ _ _ _ _ (now_run wa)).
      destruct (if _ <? 0 then None else _) as [c|]; [|discriminate].
      unfold bind at 1. destruct (randStringFrom count (i + 1) (tick 1 wa)) as [r wc|] eqn:Hr;
        [|discriminate].
      intros [= _ <-]. now rewrite (IH _ _ _ _ Hr). }
  unfold randString in Hs. change (6 <? 0) with false in Hs. cbv iota in Hs.
  now rewrite (Hgen _ _ _ _ _ Hs).
Qed.

Lemma accepted_entries (id msg note : value) :
  let body : gmap string value :=
    list_to_map [ ("status", VString "accepted"); ("job_id", id);
                  ("message", msg); ("note", note) ] in
  body !! "status" = Some (VString "accepted") /\ body !! "job_id" = Some id.
Proof. split; vm_compute; reflexivity. Qed.

Lemma validatePayload_outcome (ty : string) (payload p : gomap) (w w' : World) :
  validatePayload ty payload w = Done (inr p) w' ->
  ty = "password_hash" \/ ty = "report_generation" ->
  w' = w /\ is_Some (mapIndex p (requiredKey ty)).
Proof.
  unfold validatePayload, requiredKey. intros Hrun [-> | ->].
  - change ("password_hash" =? "password_hash")%string with true in *. cbv iota in *.
    destruct (mapIndex payload "password") as [v|] eqn:Hv; [|discriminate].
    injection Hrun as <- <-. split; [reflexivity|]. rewrite Hv. eauto.
  - change ("report_generation" =? "password_hash")%string with false in *.
    change ("report_generation" =? "report_generation")%string with true in *.
    cbv iota in *.
    destruct (mapIndex payload "data_points") as [v|] eqn:Hv.
    + injection Hrun as <- <-. split; [reflexivity|]. rewrite Hv. eauto.
    + destruct payload as [g|]; [|discriminate].
      injection Hrun as <- <-. split; [reflexivity|].
      unfold mapIndex. rewrite lookup_insert_eq. eauto.
Qed.

(** X8.  Whatever the request, when [HandleSubmitJob] answers, a job reaches
    the queue exactly when the answer is 202.  A job that reaches it was
    sent by POST while a worker was waiting, is pending, has one of the two
    known types, carries the key its type requires, and its identifier is the
    [job_id] of the answer.  Any other answer is a 400, 405 or 503, the 503
    only when no worker was waiting. *)
Theorem HandleSubmitJob_outcomes
    (ready : bool) (r : Request) (w w' : World) (resp : Response) (sent : option Job) :
  HandleSubmitJob ready r w = Done (resp, sent) w' ->
  match sent with
  | Some job =>
      ready = true /\ r_Method r = "POST" /\
      job_Status job = "pending" /\
      (job_Type job = "password_hash" \/ job_Type job = "report_generation") /\
      is_Some (mapIndex (job_Payload job) (requiredKey (job_Type job))) /\
      exists body, resp = HttpJSON StatusAccepted body /\
                   body !! "status" = Some (VString "accepted") /\
                   body !! "job_id" = Some (VString (job_ID job))
  | None =>
      exists msg, resp = HttpError (response_code resp) msg /\
        (response_code resp = StatusBadRequest \/
         response_code resp = StatusMethodNotAllowed \/
         response_code resp = StatusServiceUnavailable /\ ready = false)
  end.
Proof.
  destruct r as [method body]. unfold HandleSubmitJob. cbn [r_Method r_Body].
  destruct (String.eqb_spec method "POST") as [->|Hmethod]; cbn [negb].
  2: { intros [= <- <- _]. eexists. split; [reflexivity|]. right. now left. }
  destruct body as [| |[ty payload]].
  - rewrite (bind_run _ _ _ _ _ (logf_run _ w)). intros [= <- <- _].
    eexists. split; [reflexivity|]. now left.
  - rewrite (bind_run _ _ _ _ _ (logf_run _ w)). intros [= <- <- _].
    eexists. split; [reflexivity|]. now left.
  - cbn [req_Type req_Payload].
    assert (Hty : (negb (ty =? "password_hash")%string
                   && negb (ty =? "report_generation")%string = true) \/
                  ((negb (ty =? "password_hash")%string
                    && negb (ty =? "report_generation")%string = false) /\
                   (ty = "password_hash" \/ ty = "report_generation"))).
    { destruct (String.eqb_spec ty "password_hash");
        destruct (String.eqb_spec ty "report_generation"); simpl; auto. }
    destruct Hty as [-> | [-> Hty]].
    { intros [= <- <- _]. eexists. split; [reflexivity|]. now left. }
    unfold bind at 1.
    destruct (validatePayload ty payload w) as [[early|p] w1|msg w1] eqn:Hval;
      [| |discriminate].
    + intros [= <- <- _].
      revert Hval. unfold validatePayload.
      destruct (ty =? "password_hash")%string.
      * destruct (mapIndex payload "password"); [discriminate|].
        intros [= <- _]. eexists. split; [reflexivity|]. now left.
      * destruct (ty =? "report_generation")%string; [|discriminate].
        destruct (mapIndex payload "data_points"); [discriminate|].
        destruct payload; discriminate.
    + destruct (validatePayload_outcome ty payload p w w1 Hval Hty) as (-> & Hkey).
      unfold bind at 1.
      destruct (NewJob ty p w) as [job w2|msg w2] eqn:Hjob; [|discriminate].
      destruct (NewJob_fields ty p w w2 job Hjob) as (Hjt & Hjp & Hjs & _).
      destruct ready.
      * rewrite (bind_run _ _ _ _ _ (logf_run _ w2)). intros [= <- <- _].
        split; [reflexivity|]. split; [reflexivity|]. split; [exact Hjs|].
        split; [now rewrite Hjt|]. split; [now rewrite Hjt, Hjp|].
        eexists. split; [reflexivity|]. apply accepted_entries.
      * rewrite (bind_run _ _ _ _ _ (logf_run _ w2)). intros [= <- <- _].
        eexists. split; [reflexivity|]. right. right. split; reflexivity.
Qed.

Lemma HandleSubmitJob_outcomes_witness :
  let payload := Some ({[ "password" := VString "abc123" ]} : gmap string value) in
  let r := mkRequest "POST" (Decoded (mkSubmit "password_hash" payload)) in
  let w := exampleWorld [] in
  exists (resp : Response) (job : Job) (w' : World),
    HandleSubmitJob true r w = Done (resp, Some job) w' /\
    job_Status job = "pending" /\
    (job_Type job = "password_hash" \/ job_Type job = "report_generation") /\
    is_Some (mapIndex (job_Payload job) (requiredKey (job_Type job))) /\
    exists body, resp = HttpJSON StatusAccepted body /\
                 body !! "status" = Some (VString "accepted") /\
                 body !! "job_id" = Some (VString (job_ID job)).
Proof.
  intros payload r w.
  destruct (HandleSubmitJob_handoff true "password_hash" payload payload w)
    as (resp & sent & w' & Hrun & _ & job & -> & _);
    [now left | reflexivity | apply exampleWorld_clock_sane; lia |].
  exists resp, job, w'. split; [exact Hrun|].
  destruct (HandleSubmitJob_outcomes true r w w' resp (Some job) Hrun)
    as (_ & _ & Hs & Ht & Hk & Hbody).
  auto.
Defined.

(** ** The cost bcrypt is called with *)



(** ** The shape of job identifiers *)

Lemma letterAt_nat (n : nat) :
  (n < 36)%nat ->
  String.get n letters = Some (letterAt (Z.of_nat n)) /\
  isLetter (letterAt (Z.of_nat n)) = true /\
  letterIndex (letterAt (Z.of_nat n)) = Z.of_nat n.
Proof.
  intros Hn.
  do 36 (destruct n as [|n]; [repeat split; reflexivity|]). lia.
Qed.

Lemma letterAt_spec (k : Z) :
  0 <= k < 36 ->
  String.get (Z.to_nat k) letters = Some (letterAt k) /\
  isLetter (letterAt k) = true /\ letterIndex (letterAt k) = k.
Proof.
  intros Hk. pose proof (letterAt_nat (Z.to_nat k) ltac:(lia)) as H.
  now rewrite Z2Nat.id in H by lia.
Qed.

Lemma letterAt_inj (a b : Z) :
  0 <= a < 36 -> 0 <= b < 36 -> letterAt a = letterAt b -> a = b.
Proof.
  intros Ha Hb Heq.
  destruct (letterAt_spec a Ha) as (_ & _ & <-).
  destruct (letterAt_spec b Hb) as (_ & _ & <-). now rewrite Heq.
Qed.

Lemma randStringFrom_suffix (count : nat) :
  forall (i : Z) (w : World),
    clock_sane count w -> 0 <= i -> i + Z.of_nat count <= 6 ->
    randStringFrom count i w
      = Done (suffixFrom count i (w_clock w) (w_ticks w)) (tick count w).
Proof.
  induction count as [|count IH]; intros i w Hsane Hi Hbound.
  - destruct w; reflexivity.
  - cbn [randStringFrom suffixFrom]. rewrite (bind_run _ _ _ _ _ (now_run w)).
    set (t := w_clock w (w_ticks w)).
    assert (Ht : 0 <= t <= GoInt.maxInt - 6) by (apply (Hsane 0%nat); lia).
    unfold GoInt.add.
    rewrite (wrap_small (t + i)) by (unfold GoInt.minInt, GoInt.maxInt in *; lia).
    change (Z.of_nat (String.length letters)) with 36.
    assert (Hk : 0 <= GoInt.rem (t + i) 36 < 36)
      by (unfold GoInt.rem; apply Z.rem_bound_pos; lia).
    destruct (Z.ltb_spec (GoInt.rem (t + i) 36) 0) as [?|_]; [lia|].
    destruct (letterAt_spec _ Hk) as (-> & _).
    rewrite (bind_run _ _ _ _ _ (IH (i + 1) (tick 1 w) (clock_sane_tick _ 1 w Hsane)
                                    ltac:(lia) ltac:(lia))).
    unfold ret. rewrite tick_tick.
    now replace (count + 1)%nat with (S count) by lia.
Qed.

Lemma generateJobID_run (w : World) :
  clock_sane 7 w ->
  generateJobID w =
    Done (Time.format14 (w_clock w (w_ticks w)) +:+ "-" +:+
          suffixFrom 6 0 (w_clock w) (S (w_ticks w)))
         (tick 7 w).
Proof.
  intros Hsane. unfold generateJobID.
  rewrite (bind_run _ _ _ _ _ (now_run w)).
  unfold randString. change (6 <? 0) with false. cbv iota.
  rewrite (bind_run _ _ _ _ _
             (randStringFrom_suffix (Z.to_nat 6) 0 (tick 1 w)
                (clock_sane_tick 6 1 w Hsane) ltac:(lia) ltac:(lia))).
  unfold ret. rewrite tick_tick. reflexivity.
Qed.

Lemma list_ascii_app (a b : string) :
  String.list_ascii_of_string (a +:+ b) = String.list_ascii_of_string a ++ String.list_ascii_of_string b.
Proof. induction a as [|c a IH]; simpl; [reflexivity|]. now rewrite IH. Qed.

Lemma isDigit_digit (d : Z) : isDigit (Time.digit d) = true.
Proof.
  unfold Time.digit.
  assert (Hd : (Z.to_nat (d mod 10) < 10)%nat)
    by (pose proof (Z.mod_pos_bound d 10); lia).
  revert Hd. generalize (Z.to_nat (d mod 10)) as n. intros n Hn.
  do 10 (destruct n as [|n]; [reflexivity|]). lia.
Qed.

Lemma format14_digits (t : Z) :
  exists d1 d2 d3 d4 d5 d6 d7 d8 d9 d10 d11 d12 d13 d14 : Z,
    String.list_ascii_of_string (Time.format14 t) =
      map Time.digit [d1; d2; d3; d4; d5; d6; d7; d8; d9; d10; d11; d12; d13; d14].
Proof.
  unfold Time.format14.
  destruct (Time.civil (t / 1000000000 / 86400)) as [[y m] d].
  unfold Time.pad4, Time.pad2. rewrite !list_ascii_app.
  cbn [String.list_ascii_of_string app]. repeat eexists.
Qed.

Lemma suffixFrom_letters (count : nat) :
  forall (i : Z) (clock : nat -> Z) (tick : nat),
    (forall k, (k < count)%nat -> 0 <= clock (k + tick)%nat) -> 0 <= i ->
    length (String.list_ascii_of_string (suffixFrom count i clock tick)) = count /\
    forallb isLetter (String.list_ascii_of_string (suffixFrom count i clock tick)) = true.
Proof.
  induction count as [|count IH]; intros i clock tick Hclk Hi; [split; reflexivity|].
  cbn [suffixFrom String.list_ascii_of_string length forallb].
  destruct (IH (i + 1) clock (S tick)) as (Hlen & Hall); [|lia|].
  { intros k Hk. replace (k + S tick)%nat with (S k + tick)%nat by lia. apply Hclk. lia. }
  rewrite Hlen, Hall. split; [reflexivity|].
  assert (Hk : 0 <= GoInt.rem (clock tick + i) 36 < 36).
  { unfold GoInt.rem. apply Z.rem_bound_pos; [|lia].
    pose proof (Hclk 0%nat ltac:(lia)). simpl in *. lia. }
  destruct (letterAt_spec _ Hk) as (_ & -> & _). reflexivity.
Qed.

Lemma wellFormedID_job_id (t : Z) (suffix : string) :
  length (String.list_ascii_of_string suffix) = 6%nat ->
  forallb isLetter (String.list_ascii_of_string suffix) = true ->
  wellFormedID (Time.format14 t +:+ "-" +:+ suffix) = true.
Proof.
  intros Hlen Hall. unfold wellFormedID. rewrite !list_ascii_app.
  destruct (format14_digits t) as (d1&d2&d3&d4&d5&d6&d7&d8&d9&d10&d11&d12&d13&d14&->).
  cbn [map app String.list_ascii_of_string length take drop firstn skipn lookup list_lookup forallb].
  rewrite !isDigit_digit, Hlen. change (drop 0 ?l) with l. rewrite Hall. reflexivity.
Qed.

(** X11.  On a sane clock [NewJob] takes eight readings and returns a pending
    job with the given type and payload, created at the eighth reading, whose
    identifier matches [\d{14}-[a-z0-9]{6}]: the timestamp of the first
    reading, a dash, and six characters of [letters]. *)
Theorem NewJob_wellformed (jobType : string) (payload : gomap) (w : World) :
  clock_sane 8 w ->
  exists job : Job,
    NewJob jobType payload w = Done job (tick 8 w) /\
    wellFormedID (job_ID job) = true /\
    job_ID job = Time.format14 (w_clock w (w_ticks w)) +:+ "-" +:+
                 suffixFrom 6 0 (w_clock w) (S (w_ticks w)) /\
    job_Type job = jobType /\ job_Payload job = payload /\
    job_CreatedAt job = w_clock w (7 + w_ticks w)%nat /\
    job_Status job = "pending".
Proof.
  intros Hsane.
  assert (H7 : clock_sane 7 w) by (intros k Hk; apply Hsane; lia).
  eexists. split.
  - unfold NewJob. rewrite (bind_run _ _ _ _ _ (generateJobID_run w H7)).
    rewrite (bind_run _ _ _ _ _ (now_run _)). unfold ret. rewrite tick_tick. reflexivity.
  - cbn [job_ID job_Type job_Payload job_CreatedAt job_Status].
    split; [|repeat split].
    destruct (suffixFrom_letters 6 0 (w_clock w) (S (w_ticks w))) as (Hlen & Hall); [|lia|].
    { intros k Hk. replace (k + S (w_ticks w))%nat with (S k + w_ticks w)%nat by lia.
      apply (H7 (S k)). lia. }
    now apply wellFormedID_job_id.
Qed.

Lemma NewJob_wellformed_witness :
  clock_sane 8 (exampleWorld []) /\
  exists job : Job,
    NewJob "password_hash" None (exampleWorld []) = Done job (tick 8 (exampleWorld [])) /\
    wellFormedID (job_ID job) = true /\
    job_ID job = "20231114221320-v05afk" /\
    job_Status job = "pending".
Proof.
  split; [apply exampleWorld_clock_sane; lia|].
  destruct (NewJob_wellformed "password_hash" None (exampleWorld [])
              (exampleWorld_clock_sane 8 [] ltac:(lia)))
    as (job & Hrun & Hwf & Hid & _ & _ & _ & Hst).
  exists job. split; [exact Hrun|]. split; [exact Hwf|]. split; [|exact Hst].
  rewrite Hid. vm_compute. reflexivity.
Defined.

(** ** When two identifiers coincide *)

Lemma rem_shift (x y i : Z) :
  0 <= x -> 0 <= y -> 0 <= i ->
  GoInt.rem (x + i) 36 = GoInt.rem (y + i) 36 <-> x mod 36 = y mod 36.
Proof.
  intros Hx Hy Hi. unfold GoInt.rem. rewrite !Z.rem_mod_nonneg by lia. split; intros H.
  - replace x with (x + i - i) by lia. replace y with (y + i - i) by lia.
    rewrite (Zminus_mod (x + i)), (Zminus_mod (y + i)). now rewrite H.
  - rewrite (Z.add_mod x), (Z.add_mod y) by lia. now rewrite H.
Qed.

Lemma suffixFrom_eq_iff (count : nat) :
  forall (i : Z) (c1 c2 : nat -> Z) (t1 t2 : nat),
    0 <= i ->
    (forall k, (k < count)%nat -> 0 <= c1 (k + t1)%nat) ->
    (forall k, (k < count)%nat -> 0 <= c2 (k + t2)%nat) ->
    suffixFrom count i c1 t1 = suffixFrom count i c2 t2 <->
    forall k, (k < count)%nat -> c1 (k + t1)%nat mod 36 = c2 (k + t2)%nat mod 36.
Proof.
  induction count as [|count IH]; intros i c1 c2 t1 t2 Hi H1 H2.
  - split; [intros _ k Hk; lia | reflexivity].
  - cbn [suffixFrom].
    assert (H10 : 0 <= c1 t1) by (apply (H1 0%nat); lia).
    assert (H20 : 0 <= c2 t2) by (apply (H2 0%nat); lia).
    assert (Hr1 : 0 <= GoInt.rem (c1 t1 + i) 36 < 36)
      by (unfold GoInt.rem; apply Z.rem_bound_pos; lia).
    assert (Hr2 : 0 <= GoInt.rem (c2 t2 + i) 36 < 36)
      by (unfold GoInt.rem; apply Z.rem_bound_pos; lia).
    specialize (IH (i + 1) c1 c2 (S t1) (S t2) ltac:(lia)).
    assert (IH' : suffixFrom count (i + 1) c1 (S t1) = suffixFrom count (i + 1) c2 (S t2) <->
                  forall k, (k < count)%nat ->
                            c1 (S k + t1)%nat mod 36 = c2 (S k + t2)%nat mod 36).
    { rewrite IH.
      - split; intros H k Hk; specialize (H k Hk);
          now rewrite <- !Nat.add_succ_comm in *.
      - intros k Hk. rewrite <- Nat.add_succ_comm. apply H1. lia.
      - intros k Hk. rewrite <- Nat.add_succ_comm. apply H2. lia. }
    split.
    + intros [= Hc Hs]. apply (letterAt_inj _ _ Hr1 Hr2) in Hc.
      apply rem_shift in Hc; [|lia..].
      intros [|k] Hk; [exact Hc|]. apply IH'; [exact Hs | lia].
    + intros H. f_equal.
      * f_equal. apply rem_shift; [lia..|]. apply (H 0%nat). lia.
      * apply IH'. intros k Hk. apply (H (S k)). lia.
Qed.

Lemma suffixFrom_length (count : nat) :
  forall (i : Z) (clock : nat -> Z) (tick : nat),
    length (String.list_ascii_of_string (suffixFrom count i clock tick)) = count.
Proof.
  induction count as [|count IH]; intros i clock tick; [reflexivity|].
  cbn [suffixFrom String.list_ascii_of_string length]. now rewrite IH.
Qed.

Lemma job_id_inj (p1 p2 s1 s2 : string) :
  length (String.list_ascii_of_string s1) = length (String.list_ascii_of_string s2) ->
  p1 +:+ "-" +:+ s1 = p2 +:+ "-" +:+ s2 <-> p1 = p2 /\ s1 = s2.
Proof.
  intros Hlen. split; [|now intros [-> ->]].
  intros Heq. apply (f_equal String.list_ascii_of_string) in Heq.
  rewrite !list_ascii_app in Heq.
  apply app_inj_2 in Heq as [Hp Hs]; [|rewrite !length_app; now rewrite Hlen].
  apply app_inv_head in Hs.
  split.
  - rewrite <- (String.string_of_list_ascii_of_string p1),
            <- (String.string_of_list_ascii_of_string p2). now rewrite Hp.
  - rewrite <- (String.string_of_list_ascii_of_string s1),
            <- (String.string_of_list_ascii_of_string s2). now rewrite Hs.
Qed.

(** X12.  On sane clocks, two calls of [generateJobID] return the same
    identifier exactly when their timestamps print alike and the six readings
    behind the suffix agree modulo 36, one by one; readings within one second
    print alike. *)
Theorem generateJobID_equal_iff (w1 w2 : World) :
  clock_sane 7 w1 -> clock_sane 7 w2 ->
  exists id1 id2 : string,
    generateJobID w1 = Done id1 (tick 7 w1) /\
    generateJobID w2 = Done id2 (tick 7 w2) /\
    (id1 = id2 <->
     Time.format14 (w_clock w1 (w_ticks w1)) = Time.format14 (w_clock w2 (w_ticks w2)) /\
     forall k, (1 <= k <= 6)%nat ->
       w_clock w1 (k + w_ticks w1)%nat mod 36 = w_clock w2 (k + w_ticks w2)%nat mod 36) /\
    (w_clock w1 (w_ticks w1) / 1000000000 = w_clock w2 (w_ticks w2) / 1000000000 ->
     Time.format14 (w_clock w1 (w_ticks w1)) = Time.format14 (w_clock w2 (w_ticks w2))).
Proof.
  intros H1 H2. eexists _, _.
  split; [apply generateJobID_run; exact H1|].
  split; [apply generateJobID_run; exact H2|]. split.
  - rewrite job_id_inj by now rewrite !suffixFrom_length.
    rewrite suffixFrom_eq_iff.
    + split; intros [Hp Hs]; (split; [exact Hp|]).
      * intros k Hk. destruct k as [|k]; [lia|].
        specialize (Hs k ltac:(lia)). now rewrite <- !Nat.add_succ_comm in Hs.
      * intros k Hk. specialize (Hs (S k) ltac:(lia)).
        now rewrite <- !Nat.add_succ_comm.
    + lia.
    + intros k Hk. rewrite <- Nat.add_succ_comm. apply (H1 (S k)). lia.
    + intros k Hk. rewrite <- Nat.add_succ_comm. apply (H2 (S k)). lia.
  - unfold Time.format14. now intros ->.
Qed.

Lemma generateJobID_equal_iff_witness :
  let w1 := exampleWorld [] in
  let w2 := tick 72 (exampleWorld []) in
  clock_sane 7 w1 /\ clock_sane 7 w2 /\
  exists id1 id2 : string,
    generateJobID w1 = Done id1 (tick 7 w1) /\
    generateJobID w2 = Done id2 (tick 7 w2) /\
    id1 = id2.
Proof.
  intros w1 w2.
  assert (H1 : clock_sane 7 w1) by (apply exampleWorld_clock_sane; lia).
  assert (H2 : clock_sane 7 w2)
    by (apply clock_sane_tick, exampleWorld_clock_sane; lia).
  split; [exact H1|]. split; [exact H2|].
  destruct (generateJobID_equal_iff w1 w2 H1 H2) as (id1 & id2 & Hr1 & Hr2 & Hiff & Hsec).
  exists id1, id2. split; [exact Hr1|]. split; [exact Hr2|].
  apply Hiff. split.
  - apply Hsec. vm_compute. reflexivity.
  - intros k Hk. unfold w1, w2. simpl.
    replace (Z.of_nat (k + 72)) with (Z.of_nat (k + 0) + 72) by lia.
    replace (1700000000123456789 + 40 * (Z.of_nat (k + 0) + 72))
      with (1700000000123456789 + 40 * Z.of_nat (k + 0) + 80 * 36) by lia.
    now rewrite Z.mod_add by lia.
Defined.

(** ** A clock before 1970 *)

(** X13.  When the reading behind the first suffix character shows a time
    [t] before 1970 that is not a multiple of 36ns, Go's remainder [t % 36] is
    negative, the index into [letters] is out of range, and [NewJob] panics
    with the runtime's message for that index, after two readings of the
    clock. *)
Theorem NewJob_before_epoch (jobType : string) (payload : gomap) (w : World) :
  let t := w_clock w (S (w_ticks w)) in
  GoInt.minInt <= t < 0 -> Z.rem t 36 <> 0 ->
  -36 < Z.rem t 36 < 0 /\
  NewJob jobType payload w =
    Panicked ("runtime error: index out of range [" +:+ itoa (Z.rem t 36) +:+ "]")
             (tick 2 w).
Proof.
  intros t Ht Hrem.
  assert (Hneg : -36 < Z.rem t 36 < 0).
  { pose proof (Z.rem_nonpos t 36 ltac:(lia) ltac:(lia)).
    pose proof (Z.rem_bound_pos_neg t 36 ltac:(lia) ltac:(lia)). lia. }
  split; [exact Hneg|].
  unfold NewJob. apply bind_panicked.
  unfold generateJobID. rewrite (bind_run _ _ _ _ _ (now_run w)).
  apply bind_panicked. unfold randString. change (6 <? 0) with false. cbv iota.
  change (Z.to_nat 6) with 6%nat. cbn [randStringFrom].
  rewrite (bind_run _ _ _ _ _ (now_run (tick 1 w))).
  change (w_clock (tick 1 w) (w_ticks (tick 1 w))) with t.
  unfold GoInt.add. rewrite Z.add_0_r.
  rewrite (wrap_small t) by (unfold GoInt.minInt, GoInt.maxInt in *; lia).
  change (Z.of_nat (String.length letters)) with 36.
  unfold GoInt.rem, boundsError.
  destruct (Z.ltb_spec (Z.rem t 36) 0); [|lia].
  unfold panic. rewrite tick_tick. reflexivity.
Qed.

Lemma NewJob_before_epoch_witness :
  let w := steadyWorld (-1000000000) 40 [] in
  GoInt.minInt <= w_clock w (S (w_ticks w)) < 0 /\
  Z.rem (w_clock w (S (w_ticks w))) 36 = -24 /\
  NewJob "password_hash" None w =
    Panicked "runtime error: index out of range [-24]" (tick 2 w).
Proof.
  intros w.
  assert (Ht : GoInt.minInt <= w_clock w (S (w_ticks w)) < 0)
    by (vm_compute; split; [discriminate|reflexivity]).
  assert (Hrem : Z.rem (w_clock w (S (w_ticks w))) 36 <> 0) by (vm_compute; discriminate).
  split; [exact Ht|]. split; [reflexivity|].
  exact (proj2 (NewJob_before_epoch "password_hash" None w Ht Hrem)).
Defined.

(** ** Requests that are turned away *)

(** X9.  A request that is not a POST is answered 405 whatever its body; an
    unreadable or malformed body is answered 400 and logged; a type other
    than the two known ones is answered 400 whatever the payload.  None of
    them reads the clock or builds a job. *)
Theorem HandleSubmitJob_rejections (ready : bool) (w : World) :
  (forall (method : string) (body : Body),
      method <> "POST" ->
      HandleSubmitJob ready (mkRequest method body) w
        = Done (HttpError StatusMethodNotAllowed "Method not allowed", None) w) /\
  HandleSubmitJob ready (mkRequest "POST" Unreadable) w
    = Done (HttpError StatusBadRequest "Failed to read request", None)
           (mkWorld (w_clock w) (w_ticks w) (w_entropy w) (w_draws w) (w_heap w)
                    (w_log w ++ [LogReadError])) /\
  HandleSubmitJob ready (mkRequest "POST" Malformed) w
    = Done (HttpError StatusBadRequest "Invalid JSON", None)
           (mkWorld (w_clock w) (w_ticks w) (w_entropy w) (w_draws w) (w_heap w)
                    (w_log w ++ [LogParseError])) /\
  (forall (ty : string) (payload : gomap),
      ty <> "password_hash" -> ty <> "report_generation" ->
      HandleSubmitJob ready (mkRequest "POST" (Decoded (mkSubmit ty payload))) w
        = Done (HttpError StatusBadRequest
                  "Invalid job type. Use 'password_hash' or 'report_generation'", None) w).
Proof.
  split; [|split; [|split]].
  - intros method body Hm. unfold HandleSubmitJob. cbn [r_Method].
    destruct (String.eqb_spec method "POST"); [contradiction|reflexivity].
  - reflexivity.
  - reflexivity.
  - intros ty payload H1 H2. unfold HandleSubmitJob. cbn [r_Method r_Body req_Type].
    change ("POST" =? "POST")%string with true. cbn [negb].
    destruct (String.eqb_spec ty "password_hash"); [contradiction|].
    destruct (String.eqb_spec ty "report_generation"); [contradiction|]. reflexivity.
Qed.

Lemma HandleSubmitJob_rejections_witness :
  let w := exampleWorld [] in
  "GET" <> "POST" /\ "bogus" <> "password_hash" /\ "bogus" <> "report_generation" /\
  HandleSubmitJob true (mkRequest "GET" Malformed) w
    = Done (HttpError StatusMethodNotAllowed "Method not allowed", None) w /\
  HandleSubmitJob true (mkRequest "POST" (Decoded (mkSubmit "bogus" None))) w
    = Done (HttpError StatusBadRequest
              "Invalid job type. Use 'password_hash' or 'report_generation'", None) w.
Proof.
  intros w.
  assert (H1 : "GET" <> "POST") by discriminate.
  assert (H2 : "bogus" <> "password_hash") by discriminate.
  assert (H3 : "bogus" <> "report_generation") by discriminate.
  destruct (HandleSubmitJob_rejections true w) as (Hmethod & _ & _ & Htype).
  split; [exact H1|]. split; [exact H2|]. split; [exact H3|]. split.
  - apply Hmethod. exact H1.
  - apply Htype; assumption.
Defined.

(** ** From admission to the log *)

(** The lines of [logResult] touch nothing but the log. *)
Lemma logFields_frame (fields : list (string * value)) :
  forall w w' : World,
    foldr (fun kv rest => logf (LogResultField kv.1 kv.2) ;; rest) (ret tt) fields w
      = Done tt w' ->
    w_draws w' = w_draws w /\ w_heap w' = w_heap w.
Proof.
  induction fields as [|kv fields IH]; intros w w'.
  - intros [= <-]. split; reflexivity.
  - cbn [foldr]. rewrite (bind_run _ _ _ _ _ (logf_run _ w)).
    intros Hrun. apply IH in Hrun. exact Hrun.
Qed.

Lemma logResult_frame (jobID : string) (result : gmap string value) (w w' : World) :
  logResult jobID result w = Done tt w' ->
  w_draws w' = w_draws w /\ w_heap w' = w_heap w.
Proof.
  unfold logResult. rewrite (bind_run _ _ _ _ _ (logf_run _ w)).
  intros Hrun. apply logFields_frame in Hrun. exact Hrun.
Qed.

(** The four fields of a password result, whatever the order of the map. *)
Lemma resultLines_hashResult (hashed : string) (cost : Z) :
  resultLines (hashResult hashed cost) ≡ₚ
    [ LogResultField "hash_length" (VInt (Z.of_nat (String.length hashed)));
      LogResultField "cost" (VInt cost);
      LogResultField "algorithm" (VString "bcrypt");
      LogResultField "verified" (VBool true) ].
Proof.
  unfold resultLines, hashResult.
  rewrite map_to_list_to_map; [reflexivity|].
  cbn [fmap list_fmap fst]. apply (bool_decide_unpack _). vm_compute. reflexivity.
Qed.

Section EndToEnd.

Variable gen : nat -> string -> Z -> string + string.
Variable cmp : string -> string -> option string.

Lemma execute_password (job : Job) (password : string) (w : World) :
  job_Type job = "password_hash" ->
  asString (mapIndex (job_Payload job) "password") = Some password ->
  let cost := effectiveCost (job_Payload job) in
  let w' := mkWorld (w_clock w) (w_ticks w) (w_entropy w) (S (w_draws w)) (w_heap w)
                    (w_log w ++ [LogHashing cost]) in
  execute gen cmp job w =
    Done (match gen (w_draws w) password cost with
          | inl hashed =>
              match cmp hashed password with
              | None => inl (hashResult hashed cost)
              | Some err => inr ("hash verification failed: " +:+ err)
              end
          | inr err => inr ("bcrypt hashing failed: " +:+ err)
          end) w'.
Proof.
  intros Hty Hpw cost w'. unfold execute. rewrite Hty.
  change ("password_hash" =? "password_hash")%string with true. cbv iota.
  unfold processPasswordHash. rewrite Hpw. fold cost.
  rewrite (bind_run _ _ _ _ _ (logf_run _ w)).
  unfold bind, bcryptGenerate. cbn [w_draws].
  destruct (gen (w_draws w) password cost) as [hashed|err]; [|reflexivity].
  destruct (cmp hashed password); reflexivity.
Qed.

(** A job whose executor hands back a result: the status, the log, and what
    the rest of the world looks like afterwards. *)
Lemma processJob_completed (wk : Worker) (job : Job) (w w' : World)
      (result : gmap string value) :
  execute gen cmp (set_Status "processing" job)
          (outcome_world (logf (LogProcessing (wk_id wk) (job_ID job) (job_Type job))
                               (tick 1 w)))
    = Done (inl result) w' ->
  exists w'', processJob gen cmp wk job w = Done (set_Status "completed" job) w'' /\
    w_log w'' = w_log w' ++ LogCompleted (wk_id wk) (job_ID job) :: LogResults (job_ID job) ::
                  resultLines result /\
    w_draws w'' = w_draws w' /\ w_heap w'' = w_heap w'.
Proof.
  intros Hexec. unfold processJob.
  rewrite (bind_run _ _ _ _ _ (now_run w)).
  erewrite (bind_run (logf _)) by reflexivity.
  simpl in Hexec. rewrite (bind_run _ _ _ _ _ Hexec).
  rewrite (bind_run _ _ _ _ _ (now_run w')).
  rewrite (bind_run _ _ _ _ _ (logf_run _ _)).
  edestruct (logResult_run (job_ID job) result) as (w'' & Hrun & Hlog).
  change (job_ID (set_Status "completed" (set_Status "processing" job)))
    with (job_ID job).
  rewrite (bind_run _ _ _ _ _ Hrun).
  exists w''. split; [reflexivity|]. split.
  - rewrite Hlog. unfold resultLines. simpl. now rewrite <- app_assoc.
  - apply logResult_frame in Hrun. exact Hrun.
Qed.

(** X6.  A [password_hash] job with a string password draws one salt and is
    completed exactly when bcrypt returns a hash and the hash verifies against
    the password; the log then shows the cost, the completion and, in some
    order, the four fields of the result: the length of the hash, the cost,
    the algorithm and the verification.  A hashing error or a failed
    verification fails the job with the error wrapped in the log. *)
Theorem password_hash_job_outcome (wk : Worker) (job : Job) (password : string) (w : World) :
  job_Type job = "password_hash" ->
  asString (mapIndex (job_Payload job) "password") = Some password ->
  let cost := effectiveCost (job_Payload job) in
  let before := w_log w ++ [LogProcessing (wk_id wk) (job_ID job) "password_hash";
                            LogHashing cost] in
  exists w', w_draws w' = S (w_draws w) /\
    match gen (w_draws w) password cost with
    | inl hashed =>
        match cmp hashed password with
        | None =>
            processJob gen cmp wk job w = Done (set_Status "completed" job) w' /\
            exists lines : list LogEvent,
              lines ≡ₚ [ LogResultField "hash_length" (VInt (Z.of_nat (String.length hashed)));
                         LogResultField "cost" (VInt cost);
                         LogResultField "algorithm" (VString "bcrypt");
                         LogResultField "verified" (VBool true) ] /\
              w_log w' = before ++ LogCompleted (wk_id wk) (job_ID job) ::
                           LogResults (job_ID job) :: lines
        | Some err =>
            processJob gen cmp wk job w = Done (set_Status "failed" job) w' /\
            w_log w' = before ++ [LogFailed (wk_id wk) (job_ID job)
                                            ("hash verification failed: " +:+ err)]
        end
    | inr err =>
        processJob gen cmp wk job w = Done (set_Status "failed" job) w' /\
        w_log w' = before ++ [LogFailed (wk_id wk) (job_ID job)
                                        ("bcrypt hashing failed: " +:+ err)]
    end.
Proof.
  intros Hty Hpw cost before.
  set (w1 := outcome_world (logf (LogProcessing (wk_id wk) (job_ID job) (job_Type job))
                                  (tick 1 w))).
  pose proof (execute_password (set_Status "processing" job) password w1 Hty Hpw) as Hexec.
  cbv zeta in Hexec.
  change (job_Payload (set_Status "processing" job)) with (job_Payload job) in Hexec.
  fold cost in Hexec. change (w_draws w1) with (w_draws w) in Hexec.
  assert (Hlog1 : w_log w1 ++ [LogHashing cost] = before).
  { unfold before, w1. simpl. rewrite Hty. now rewrite <- app_assoc. }
  destruct (gen (w_draws w) password cost) as [hashed|err].
  - destruct (cmp hashed password) as [err|].
    + unfold processJob.
      rewrite (bind_run _ _ _ _ _ (now_run w)).
      erewrite (bind_run (logf _)) by reflexivity.
      fold w1. rewrite (bind_run _ _ _ _ _ Hexec).
      rewrite (bind_run _ _ _ _ _ (now_run _)).
      eexists. split; [|split; [reflexivity|]]; [reflexivity|].
      simpl. unfold before. rewrite Hty. now rewrite <- !app_assoc.
    + destruct (processJob_completed wk job w _ _ Hexec) as (w' & Hrun & Hlog & Hdraws & _).
      exists w'. split; [exact Hdraws|]. split; [exact Hrun|].
      exists (resultLines (hashResult hashed cost)).
      split; [apply resultLines_hashResult|].
      rewrite Hlog. cbn [w_log]. rewrite Hlog1. reflexivity.
  - unfold processJob.
    rewrite (bind_run _ _ _ _ _ (now_run w)).
    erewrite (bind_run (logf _)) by reflexivity.
    fold w1. rewrite (bind_run _ _ _ _ _ Hexec).
    rewrite (bind_run _ _ _ _ _ (now_run _)).
    eexists. split; [|split; [reflexivity|]]; [reflexivity|].
    simpl. unfold before. rewrite Hty. now rewrite <- !app_assoc.
Qed.


End EndToEnd.

Lemma password_hash_job_outcome_witness :
  let job := mkJob "20231114221320-v05afk" "password_hash"
                   (Some {[ "password" := VString "abc123" ]}) 0 "pending" in
  let w := exampleWorld [] in
  job_Type job = "password_hash" /\
  asString (mapIndex (job_Payload job) "password") = Some "abc123" /\
  exists w', w_draws w' = 1%nat /\
    processJob exampleGenerate exampleCompare (NewWorker 1 []) job w
      = Done (set_Status "completed" job) w' /\
    exists lines : list LogEvent,
      lines ≡ₚ [ LogResultField "hash_length" (VInt 60);
                 LogResultField "cost" (VInt 10);
                 LogResultField "algorithm" (VString "bcrypt");
                 LogResultField "verified" (VBool true) ] /\
      w_log w' = [ LogProcessing 1 "20231114221320-v05afk" "password_hash";
                   LogHashing 10;
                   LogCompleted 1 "20231114221320-v05afk";
                   LogResults "20231114221320-v05afk" ] ++ lines.
Proof.
  intros job w. split; [reflexivity|]. split; [reflexivity|].
  destruct (password_hash_job_outcome exampleGenerate exampleCompare (NewWorker 1 []) job
              "abc123" w eq_refl eq_refl) as (w' & Hdraws & Hrun).
  exists w'. split; [exact Hdraws | exact Hrun].
Defined.


(** ** A dataset of one element *)

(** X3.  For a slice that holds a single value, every order statistic is
    that value: min, max, median and the four percentiles, with count 1. *)
Theorem computeStatistics_singleton (w : World) (d : Slice.t) (x : float) :
  w_heap w !! d = Some [x] ->
  exists m : gmap string value,
    outcome_value (computeStatistics d w) = Some m /\
    m !! "count" = Some (VInt 1) /\
    m !! "min" = Some (VFloat x) /\ m !! "max" = Some (VFloat x) /\
    m !! "median" = Some (VFloat x) /\
    m !! "p25" = Some (VFloat x) /\ m !! "p75" = Some (VFloat x) /\
    m !! "p95" = Some (VFloat x) /\ m !! "p99" = Some (VFloat x).
Proof.
  intros Hd. exists (statisticsOf [x]).
  rewrite (computeStatistics_run w d [x] Hd ltac:(discriminate)
             ltac:(vm_compute; discriminate)).
  destruct (statisticsOf_summary [x]) as (_ & _ & Hcount & Hmin & Hmax & _).
  destruct (statisticsOf_ranks [x]) as (Hmed & H25 & H75 & H95 & H99).
  assert (Hlo : fold_left statsMin [x] (rank [x] 0) = x).
  { cbn [fold_left]. change (rank [x] 0) with x. unfold statsMin. now rewrite ltb_irrefl. }
  assert (Hhi : fold_left statsMax [x] (rank [x] 0) = x).
  { cbn [fold_left]. change (rank [x] 0) with x. unfold statsMax. now rewrite ltb_irrefl. }
  rewrite Hlo in Hmin. rewrite Hhi in Hmax.
  split; [reflexivity|]. split; [exact Hcount|]. split; [exact Hmin|].
  split; [exact Hmax|]. split; [exact Hmed|]. repeat split; assumption.
Qed.

Lemma computeStatistics_singleton_witness :
  let w := exampleWorld [[42]%float] in
  w_heap w !! 0%nat = Some [42]%float /\
  exists m : gmap string value,
    outcome_value (computeStatistics 0%nat w) = Some m /\
    m !! "count" = Some (VInt 1) /\
    m !! "min" = Some (VFloat 42) /\ m !! "max" = Some (VFloat 42) /\
    m !! "median" = Some (VFloat 42) /\
    m !! "p25" = Some (VFloat 42) /\ m !! "p75" = Some (VFloat 42) /\
    m !! "p95" = Some (VFloat 42) /\ m !! "p99" = Some (VFloat 42).
Proof.
  split; [reflexivity|].
  apply (computeStatistics_singleton (exampleWorld [[42]%float]) 0%nat 42%float).
  reflexivity.
Defined.
